(** * Authentication glue of the Next.js / Auth.js / Prisma boilerplate

    A shallow embedding of the four pieces of logic of the repository:
    - the Credentials Authorizer and the [jwt] / [session] callbacks,
      [auth.ts];
    - the Edge Gate, [middleware.ts];
    - the credential-login server action, [lib/authcontrol.ts];
    - the registration endpoint, [POST /api/auth/register].

    The external collaborators (the Prisma client, bcrypt, the Auth.js
    [signIn]) are interfaces: a theorem holds for each behaviour they may
    show, throwing included. *)

From Stdlib Require Import String Ascii List Bool ZArith Lia.
Import ListNotations.
Local Open Scope string_scope.

(** * Part I: the program *)

(** ** JavaScript strings and arrays *)

(** [s.startsWith(searchString)] *)
Definition startsWith (s searchString : string) : bool :=
  String.prefix searchString s.

(** [array.includes(x)] on an array of strings. *)
Definition includes (array : list string) (x : string) : bool :=
  existsb (String.eqb x) array.

(** Truthiness of an optional string: [undefined], [null] and the empty
    string are falsy. *)
Definition truthy (v : option string) : bool :=
  match v with
  | Some s => negb (String.eqb s "")
  | None => false
  end.
Arguments truthy : simpl never.

(** ** Exceptions and effects *)

(** Thrown values. [instanceof AuthError] holds of the first constructor
    only; [type] is the error's [type] property. *)
Inductive exn :=
| AuthError (type : string)
| Error (name message : string).

(** How the evaluation of a block ends. *)
Inductive completion (A : Type) :=
| Return (a : A)
| Throw (e : exn).
Arguments Return {A} a.
Arguments Throw {A} e.

(** The state a handler runs in: the database behind the Prisma client
    and the lines written with [console.error]. *)
Record World (DB : Type) := {
  store : DB;
  console : list (string * exn)
}.
Arguments store {DB} w.
Arguments console {DB} w.

Definition Run (DB A : Type) : Type := World DB -> completion A * World DB.

Definition ret {DB A} (a : A) : Run DB A := fun w => (Return a, w).

Definition throw {DB A} (e : exn) : Run DB A := fun w => (Throw e, w).

Definition bind {DB A B} (c : Run DB A) (k : A -> Run DB B) : Run DB B :=
  fun w =>
    match c w with
    | (Return a, w') => k a w'
    | (Throw e, w') => (Throw e, w')
    end.

(** [try { body } catch (error) { handler }] *)
Definition try_catch {DB A} (body : Run DB A) (handler : exn -> Run DB A) : Run DB A :=
  fun w =>
    match body w with
    | (Return a, w') => (Return a, w')
    | (Throw e, w') => handler e w'
    end.

(** [console.error(label, error)] *)
Definition console_error {DB} (label : string) (error : exn) : Run DB unit :=
  fun w => (Return tt, {| store := store w; console := (console w ++ [(label, error)])%list |}).

(** A value a collaborator computed without touching the world. *)
Definition await {DB A} (c : completion A) : Run DB A := fun w => (c, w).

Declare Scope run_scope.
Delimit Scope run_scope with run.
Notation "x <- c ;; k" := (bind c (fun x => k))
  (at level 61, c at next level, right associativity) : run_scope.
Notation "c ;; k" := (bind c (fun _ => k))
  (at level 61, right associativity) : run_scope.

(** ** The data model: the [User] table and the Auth.js objects *)

(** A row of the [User] table of [schema.prisma]. *)
Module User.
Record t := {
  id : string;
  name : option string;
  email : option string;
  emailVerified : option Z;
  image : option string;
  password : option string
}.
End User.

(** The decoded session token. [id] is the custom claim of this
    repository, absent until the [jwt] callback sets it. *)
Module JWT.
Record t := {
  sub : option string;
  name : option string;
  email : option string;
  picture : option string;
  exp : Z;
  id : option string
}.
End JWT.

Module SessionUser.
Record t := {
  id : option string;
  name : option string;
  email : option string;
  image : option string
}.
End SessionUser.

(** The session object handed to clients; [user] is optional in its
    type. *)
Module Session.
Record t := {
  user : option SessionUser.t;
  expires : string
}.
End Session.

(** ** The collaborators *)

(** The [data] of [prisma.user.create]. *)
Module UserCreateInput.
Record t := {
  name : string;
  email : string;
  password : string
}.
End UserCreateInput.

(** The Prisma client on the [User] table. [users] is the content of the
    table; a query either returns or throws, and [create] returns the new
    row and the store that holds it. *)
Class Persistence (DB : Type) := {
  users : DB -> list User.t;
  findUnique : DB -> string -> completion (option User.t);
  findFirst : DB -> string -> completion (option User.t);
  create : DB -> UserCreateInput.t -> completion (User.t * DB)
}.

(** What the client promises when it does not throw: a lookup by email
    answers from the table, and [create] appends one row made of its
    [data]. *)
Class PersistenceLaws (DB : Type) `{Persistence DB} : Prop := {
  findFirst_hit : forall db e u,
    findFirst db e = Return (Some u) ->
    In u (users db) /\ User.email u = Some e;
  findFirst_miss : forall db e,
    findFirst db e = Return None ->
    forall u, In u (users db) -> User.email u <> Some e;
  create_appends : forall db d u db',
    create db d = Return (u, db') ->
    users db' = (users db ++ [u])%list /\
    User.name u = Some (UserCreateInput.name d) /\
    User.email u = Some (UserCreateInput.email d) /\
    User.password u = Some (UserCreateInput.password d)
}.

(** bcrypt. One handler run calls [hash] at most once, so a function of
    the plaintext and the cost stands for the salted hash of that run. *)
Class Bcrypt := {
  bcrypt_hash : string -> Z -> completion string;
  bcrypt_compare : string -> string -> completion bool
}.

(** What the endpoint relies on to keep plaintexts out of the table: the
    hash of a plaintext is never the plaintext itself. *)
Definition never_plaintext (B : Bcrypt) : Prop :=
  forall plaintext cost h, bcrypt_hash plaintext cost = Return h -> h <> plaintext.

Section PrismaCalls.
Context {DB : Type} `{Persistence DB}.

Definition prisma_user_findUnique (email : string) : Run DB (option User.t) :=
  fun w => (findUnique (store w) email, w).

Definition prisma_user_findFirst (email : string) : Run DB (option User.t) :=
  fun w => (findFirst (store w) email, w).

Definition prisma_user_create (data : UserCreateInput.t) : Run DB User.t :=
  fun w =>
    match create (store w) data with
    | Return (u, db') => (Return u, {| store := db'; console := console w |})
    | Throw e => (Throw e, w)
    end.

End PrismaCalls.

(** ** [auth.ts]: the Credentials Authorizer and the callbacks *)

Module Auth.

(** The argument of [authorize]. *)
Inductive Credentials :=
| Null
| Undefined
| Submitted (email password : string).

Section Authorize.
Context {DB : Type} `{Persistence DB} `{Bcrypt}.
Local Open Scope run_scope.

(** [credentials.email] and [credentials.password]; reading a property
    of [undefined] throws. *)
Definition credentials_email (credentials : Credentials) : Run DB string :=
  match credentials with
  | Submitted email _ => ret email
  | _ => throw (Error "TypeError" "Cannot read properties of undefined (reading 'email')")
  end.

Definition credentials_password (credentials : Credentials) : Run DB string :=
  match credentials with
  | Submitted _ password => ret password
  | _ => throw (Error "TypeError" "Cannot read properties of undefined (reading 'password')")
  end.

Definition authorize (credentials : Credentials) : Run DB (option User.t) :=
  match credentials with
  | Null => ret None
  | _ =>
    try_catch
      (email <- credentials_email credentials ;;
       user <- prisma_user_findUnique email ;;
       match user with
       | Some u =>
         match User.password u with
         | Some hash =>
           if truthy (Some hash) then
             password <- credentials_password credentials ;;
             isPasswordCorrect <- await (bcrypt_compare password hash) ;;
             if (isPasswordCorrect : bool) then ret (Some u) else ret None
           else ret None
         | None => ret None
         end
       | None => ret None
       end)
      (fun error => console_error "Authorize error:" error ;; ret None)
  end.

End Authorize.

(** [callbacks.jwt({ token, user })] *)
Definition jwt (token : JWT.t) (user : option User.t) : JWT.t :=
  match user with
  | Some u =>
    {| JWT.sub := JWT.sub token; JWT.name := JWT.name token;
       JWT.email := JWT.email token; JWT.picture := JWT.picture token;
       JWT.exp := JWT.exp token; JWT.id := Some (User.id u) |}
  | None => token
  end.

(** [callbacks.session({ session, token })] *)
Definition session (session : Session.t) (token : JWT.t) : Session.t :=
  match Session.user session with
  | Some su =>
    {| Session.user :=
         Some {| SessionUser.id := JWT.id token; SessionUser.name := SessionUser.name su;
                 SessionUser.email := SessionUser.email su;
                 SessionUser.image := SessionUser.image su |};
       Session.expires := Session.expires session |}
  | None => session
  end.

(** [session.user?.id], what a client reads as the signed-in user's id. *)
Definition session_user_id (s : Session.t) : option string :=
  match Session.user s with
  | Some su => SessionUser.id su
  | None => None
  end.

(** The token after [n] refreshes: the [jwt] callback runs with no
    [user] each time. *)
Fixpoint refreshed (n : nat) (token : JWT.t) : JWT.t :=
  match n with
  | O => token
  | S k => jwt (refreshed k token) None
  end.

(** The session object Auth.js builds on a session read under
    [session: { strategy: "jwt" }], before it calls the [session]
    callback: a [user] made of the token's name, email and picture, and
    the new expiry. *)
Definition token_session (token : JWT.t) (expires : string) : Session.t :=
  {| Session.user :=
       Some {| SessionUser.id := None; SessionUser.name := JWT.name token;
               SessionUser.email := JWT.email token;
               SessionUser.image := JWT.picture token |};
     Session.expires := expires |}.

(** A session read: the callback on that object and the token. *)
Definition session_read (token : JWT.t) (expires : string) : Session.t :=
  session (token_session token expires) token.

End Auth.

(** ** [middleware.ts]: the Edge Gate *)

(** The callback handed to [auth(...)]. Which requests reach it is
    decided by [config.matcher], which is not part of the model. *)
Module Middleware.

(** The part of a URL the gate reads or builds. *)
Record URL := {
  origin : string;
  pathname : string;
  search : string
}.

(** The request the callback receives; [auth] is the session Auth.js
    decoded from the cookie, or [null]. *)
Record Request := {
  nextUrl : URL;
  auth : option Session.t;
  method : string;
  headers : list (string * string)
}.

(** What the callback returns: [undefined], and the request goes on, or
    a redirect response. *)
Inductive Result :=
| Undefined
| Redirect (location : URL).

(** [new URL(path, base)] for an absolute path: the origin of the base,
    the given path, no query. *)
Definition new_URL (path : string) (base : URL) : URL :=
  {| origin := origin base; pathname := path; search := "" |}.

Definition isLoggedIn (req : Request) : bool :=
  match auth req with
  | Some _ => true
  | None => false
  end.

Definition isApiAuthRoute (req : Request) : bool :=
  startsWith (pathname (nextUrl req)) "/api/auth".

Definition isPublicRoute (req : Request) : bool :=
  includes ["/signin"; "/signup"] (pathname (nextUrl req)).

Definition isProtectedRoute (req : Request) : bool :=
  startsWith (pathname (nextUrl req)) "/dashboard".

Definition middleware (req : Request) : Result :=
  if isApiAuthRoute req then Undefined
  else if isPublicRoute req then
    (if isLoggedIn req then Redirect (new_URL "/dashboard" (nextUrl req))
     else Undefined)
  else if isProtectedRoute req && negb (isLoggedIn req) then
    Redirect (new_URL "/signin" (nextUrl req))
  else Undefined.

(** *** The routing table as the specification words it *)

Inductive PathClass := AuthApi | PublicRoute | ProtectedRoute | OtherPath.

(** An action of the table: pass through, or redirect to a route. *)
Inductive Action :=
| PassThrough
| RedirectTo (target : string).

(** The class of a path, the auth-API check first. *)
Definition classify (path : string) : PathClass :=
  if startsWith path "/api/auth" then AuthApi
  else if String.eqb path "/signin" || String.eqb path "/signup" then PublicRoute
  else if startsWith path "/dashboard" then ProtectedRoute
  else OtherPath.

Definition routing_table (c : PathClass) (session_present : bool) : Action :=
  match c, session_present with
  | AuthApi, _ => PassThrough
  | PublicRoute, true => RedirectTo "/dashboard"
  | PublicRoute, false => PassThrough
  | ProtectedRoute, false => RedirectTo "/signin"
  | ProtectedRoute, true => PassThrough
  | OtherPath, _ => PassThrough
  end.

(** The action a result of the callback stands for. *)
Definition action_of (r : Result) : Action :=
  match r with
  | Undefined => PassThrough
  | Redirect u => RedirectTo (pathname u)
  end.

(** The result that carries out an action for a request made at [base]. *)
Definition respond (base : URL) (a : Action) : Result :=
  match a with
  | PassThrough => Undefined
  | RedirectTo target => Redirect (new_URL target base)
  end.

End Middleware.

(** ** [lib/authcontrol.ts]: the credential-login server action *)

Module AuthControl.

(** The [data: any] of the action: a [FormData], the object of
    react-hook-form, or nothing. *)
Inductive LoginData :=
| FormData (entries : list (string * string))
| FormObject (email password : option string)
| Nullish.

Record SignInOptions := {
  email : option string;
  password : option string;
  redirectTo : string
}.

(** The structured result [{ error }]. *)
Record ActionResult := { error : string }.

(** [formData.get(name)]: the first value under the name, or [null]. *)
Fixpoint FormData_get (entries : list (string * string)) (name : string) : option string :=
  match entries with
  | [] => None
  | (k, v) :: rest => if String.eqb k name then Some v else FormData_get rest name
  end.

Section Action.
Context {DB : Type}.
(** The [signIn] of Auth.js. *)
Variable signIn : string -> SignInOptions -> Run DB unit.
Local Open Scope run_scope.

(** The [email] and [password] read off [data]. *)
Definition read_fields (data : LoginData) : Run DB (option string * option string) :=
  match data with
  | FormData entries => ret (FormData_get entries "email", FormData_get entries "password")
  | FormObject email password => ret (email, password)
  | Nullish => throw (Error "TypeError" "Cannot read properties of undefined (reading 'email')")
  end.

Definition doCredentialLogin (data : LoginData) : Run DB (option ActionResult) :=
  try_catch
    (fields <- read_fields data ;;
     signIn "credentials"
       {| email := fst fields; password := snd fields; redirectTo := "/dashboard" |} ;;
     ret None)
    (fun error =>
       match error with
       | AuthError type =>
         if String.eqb type "CredentialsSignin"
         then ret (Some {| error := "Invalid credentials." |})
         else ret (Some {| error := "Something went wrong." |})
       | _ => throw error
       end).

End Action.

End AuthControl.

(** ** [POST /api/auth/register]: the registration endpoint *)

Module Register.

(** The JSON body after [const { name, email, password } = body]. *)
Record Body := {
  name : string;
  email : string;
  password : string
}.

(** [json] is what [request.json()] gives: the body, or a throw when the
    payload is not JSON. *)
Record Request := { json : completion Body }.

(** [Response.json({ success, message }, { status })] *)
Record Response := {
  status : Z;
  success : bool;
  message : string
}.

Definition Response_json (success : bool) (message : string) (status : Z) : Response :=
  {| status := status; success := success; message := message |}.

Section Handler.
Context {DB : Type} `{Persistence DB} `{Bcrypt}.
Local Open Scope run_scope.

(** The [data] of the insert: the submitted name and email, and the
    hash in place of the password. *)
Definition user_data (body : Body) (hashPassword : string) : UserCreateInput.t :=
  {| UserCreateInput.name := name body;
     UserCreateInput.email := email body;
     UserCreateInput.password := hashPassword |}.

Definition POST (request : Request) : Run DB Response :=
  try_catch
    (body <- await (json request) ;;
     hashPassword <- await (bcrypt_hash (password body) 10) ;;
     user <- prisma_user_findFirst (email body) ;;
     match user with
     | Some _ => ret (Response_json false "Email already exists" 401)
     | None =>
       prisma_user_create (user_data body hashPassword) ;;
       ret (Response_json true "User created successfully" 200)
     end)
    (fun error =>
       console_error "" error ;;
       ret (Response_json false "Something went wrong" 500)).

(** An exception is thrown while [POST] handles the request: by
    [request.json()], by [bcrypt.hash], by the lookup, or by the insert
    when the lookup found no row. *)
Inductive raises (request : Request) (w : World DB) : exn -> Prop :=
| json_raises e :
    json request = Throw e ->
    raises request w e
| hash_raises body e :
    json request = Return body ->
    bcrypt_hash (password body) 10 = Throw e ->
    raises request w e
| findFirst_raises body h e :
    json request = Return body ->
    bcrypt_hash (password body) 10 = Return h ->
    findFirst (store w) (email body) = Throw e ->
    raises request w e
| create_raises body h e :
    json request = Return body ->
    bcrypt_hash (password body) 10 = Return h ->
    findFirst (store w) (email body) = Return None ->
    create (store w) (user_data body h) = Throw e ->
    raises request w e.

(** The world after [console.error(error)]. *)
Definition logged (e : exn) (w : World DB) : World DB :=
  {| store := store w; console := (console w ++ [("", e)])%list |}.

End Handler.

End Register.

(** ** Histories of the server *)

Section Histories.
Context {DB : Type} `{Persistence DB} `{Bcrypt}.

(** [later w w']: the world [w'] is reached from [w] by handling any
    number of registration requests and running [authorize] any number
    of times, in any order. *)
Inductive later (w : World DB) : World DB -> Prop :=
| later_now : later w w
| later_POST w' request :
    later w w' ->
    later w (snd (Register.POST request w'))
| later_authorize w' credentials :
    later w w' ->
    later w (snd (Auth.authorize credentials w')).

End Histories.

(** ** More of the collaborators' contracts *)

(** [findUnique] by email, when it does not throw, answers from the
    table. *)
Class FindUniqueLaws (DB : Type) `{Persistence DB} : Prop := {
  findUnique_hit : forall db e u,
    findUnique db e = Return (Some u) ->
    In u (users db) /\ User.email u = Some e;
  findUnique_miss : forall db e,
    findUnique db e = Return None ->
    forall u, In u (users db) -> User.email u <> Some e
}.

(** bcrypt accepts a plaintext against its own hash, and a hash is never
    the empty string. *)
Class BcryptLaws `{Bcrypt} : Prop := {
  compare_own_hash : forall plaintext cost h,
    bcrypt_hash plaintext cost = Return h ->
    bcrypt_compare plaintext h = Return true;
  hash_not_empty : forall plaintext cost h,
    bcrypt_hash plaintext cost = Return h -> h <> ""
}.

(** The emails of a table, row by row; a row without email gives none. *)
Definition emails (table : list User.t) : list string :=
  flat_map (fun u => match User.email u with Some e => [e] | None => [] end) table.

(** The unique index on [email]: no email occurs twice. *)
Definition unique_emails (table : list User.t) : Prop := NoDup (emails table).

(** [try { body } finally { finalizer }] *)
Definition try_finally {DB A} (body : Run DB A) (finalizer : Run DB unit) : Run DB A :=
  fun w =>
    match body w with
    | (c, w') =>
      match finalizer w' with
      | (Return _, w'') => (c, w'')
      | (Throw e, w'') => (Throw e, w'')
      end
    end.

(** The toasts of [sonner]. *)
Inductive Toast :=
| toast_success (message : string)
| toast_error (message : string).

(** ** [login/page.tsx]: the submit handler of the sign-in form *)

Module LoginPage.

Record LoginFormData := {
  email : string;
  password : string
}.

(** What the component shows and did: the [loading] state, the toasts
    raised, the routes pushed on the router, and how often the form was
    reset and the session refreshed. *)
Record View := {
  loading : bool;
  toasts : list Toast;
  pushed : list string;
  resets : nat;
  updates : nat
}.

Definition on_view (f : View -> View) : Run View unit :=
  fun w => (Return tt, {| store := f (store w); console := console w |}).

Definition setLoading (b : bool) : Run View unit :=
  on_view (fun v => {| loading := b; toasts := toasts v; pushed := pushed v;
                       resets := resets v; updates := updates v |}).

Definition toast (t : Toast) : Run View unit :=
  on_view (fun v => {| loading := loading v; toasts := (toasts v ++ [t])%list;
                       pushed := pushed v; resets := resets v; updates := updates v |}).

Definition router_push (route : string) : Run View unit :=
  on_view (fun v => {| loading := loading v; toasts := toasts v;
                       pushed := (pushed v ++ [route])%list;
                       resets := resets v; updates := updates v |}).

Definition reset : Run View unit :=
  on_view (fun v => {| loading := loading v; toasts := toasts v; pushed := pushed v;
                       resets := S (resets v); updates := updates v |}).

Section Component.
(** What awaiting the server action [doCredentialLogin(data)] gives the
    client, and what awaiting [update()] of [useSession] gives. *)
Variable doCredentialLogin : LoginFormData -> completion (option AuthControl.ActionResult).
Variable update : completion unit.
Local Open Scope run_scope.

Definition update_session : Run View unit :=
  await update ;;
  on_view (fun v => {| loading := loading v; toasts := toasts v; pushed := pushed v;
                       resets := resets v; updates := S (updates v) |}).

(** [response?.error] as a condition. *)
Definition has_error (response : option AuthControl.ActionResult) : bool :=
  truthy (option_map AuthControl.error response).

Definition onSubmit (data : LoginFormData) : Run View unit :=
  setLoading true ;;
  try_finally
    (try_catch
       (response <- await (doCredentialLogin data) ;;
        if has_error response then toast (toast_error "Invalid credentials")
        else
          toast (toast_success "Login successful!") ;;
          update_session ;;
          router_push "/dashboard")
       (fun e =>
          console_error "" e ;;
          toast (toast_error "Login failed. Please try again.")))
    (setLoading false ;; reset).

End Component.

(** The object of react-hook-form as the server action receives it. *)
Definition as_login_data (data : LoginFormData) : AuthControl.LoginData :=
  AuthControl.FormObject (Some (email data)) (Some (password data)).

(** The server action as the form calls it, run in the world [w] of the
    server: the client gets what the action returns or throws. *)
Definition called {DB : Type}
    (signIn : string -> AuthControl.SignInOptions -> Run DB unit) (w : World DB)
    (data : LoginFormData) : completion (option AuthControl.ActionResult) :=
  fst (AuthControl.doCredentialLogin signIn (as_login_data data) w).

End LoginPage.

(** ** [components/RegisterComponent.tsx]: the submit handler *)

Module RegisterPage.

Record RegisterFormData := {
  name : string;
  email : string;
  password : string
}.

(** The response of [fetch]: its status, and what [res.json()] gives,
    read at the [message] property the handler uses. *)
Record FetchResponse := {
  status : Z;
  json : completion (option string)
}.

(** [res.ok]: a status from 200 to 299. *)
Definition ok (res : FetchResponse) : bool :=
  (200 <=? status res)%Z && (status res <=? 299)%Z.

(** The state of the component and what it did; [logged] holds the
    arguments of [console.log]. *)
Record View := {
  loading : bool;
  toasts : list Toast;
  pushed : list string;
  logged : list RegisterFormData
}.

Definition on_view (f : View -> View) : Run View unit :=
  fun w => (Return tt, {| store := f (store w); console := console w |}).

Definition setLoading (b : bool) : Run View unit :=
  on_view (fun v => {| loading := b; toasts := toasts v; pushed := pushed v;
                       logged := logged v |}).

Definition toast (t : Toast) : Run View unit :=
  on_view (fun v => {| loading := loading v; toasts := (toasts v ++ [t])%list;
                       pushed := pushed v; logged := logged v |}).

Definition router_push (route : string) : Run View unit :=
  on_view (fun v => {| loading := loading v; toasts := toasts v;
                       pushed := (pushed v ++ [route])%list; logged := logged v |}).

Definition console_log (data : RegisterFormData) : Run View unit :=
  on_view (fun v => {| loading := loading v; toasts := toasts v; pushed := pushed v;
                       logged := (logged v ++ [data])%list |}).

Section Component.
(** [fetch(url, { method: "POST", body: JSON.stringify(data) })] *)
Variable fetch : string -> RegisterFormData -> completion FetchResponse.
Local Open Scope run_scope.

(** [err.message || "Failed to register"] *)
Definition message_or (message : option string) (fallback : string) : string :=
  match message with
  | Some m => if truthy (Some m) then m else fallback
  | None => fallback
  end.

Definition onRegister (data : RegisterFormData) : Run View unit :=
  setLoading true ;;
  console_log data ;;
  try_finally
    (try_catch
       (res <- await (fetch "/api/auth/register" data) ;;
        if ok res then
          toast (toast_success "Register Successful") ;;
          router_push "/login"
        else
          err <- await (json res) ;;
          toast (toast_error (message_or err "Failed to register")))
       (fun _ => toast (toast_error "Failed to register")))
    (setLoading false).

End Component.

(** The request the endpoint gets for the data of the form: what
    [request.json()] parses back from [JSON.stringify(data)]. *)
Definition as_request (data : RegisterFormData) : Register.Request :=
  {| Register.json :=
       Return {| Register.name := name data; Register.email := email data;
                 Register.password := password data |} |}.

(** The response of the endpoint as [fetch] hands it to the page. *)
Definition as_fetch_response (r : Register.Response) : FetchResponse :=
  {| status := Register.status r; json := Return (Some (Register.message r)) |}.

(** [fetch] answered by the registration endpoint running in the world
    [w]; any other URL gives a 404 without a JSON body. *)
Definition served {DB : Type} `{Persistence DB} `{Bcrypt} (w : World DB)
    (url : string) (data : RegisterFormData) : completion FetchResponse :=
  if String.eqb url "/api/auth/register" then
    match fst (Register.POST (as_request data) w) with
    | Return r => Return (as_fetch_response r)
    | Throw e => Throw e
    end
  else
    Return {| status := 404;
              json := Throw (Error "SyntaxError" "Unexpected token '<'") |}.

End RegisterPage.

(** ** [lib/prisma.ts]: the client kept on [globalThis] *)

Module PrismaSingleton.

(** The process as the module sees it: the [prisma] slot of the global
    object, holding the handle of a client, and the number of clients
    constructed so far (the next handle). *)
Record Process := {
  global_prisma : option nat;
  constructed : nat
}.

(** One evaluation of the module: the exported [prisma] and the process
    after it. *)
Definition evaluate (production : bool) (p : Process) : nat * Process :=
  let '(prisma, made) :=
    match global_prisma p with
    | Some client => (client, constructed p)
    | None => (constructed p, S (constructed p))
    end in
  (prisma,
   {| global_prisma := if production then global_prisma p else Some prisma;
      constructed := made |}).

(** The exports of [n] evaluations in a row (hot reloads), oldest first,
    and the process after them. *)
Fixpoint reload (production : bool) (n : nat) (p : Process) : list nat * Process :=
  match n with
  | O => ([], p)
  | S k =>
    let '(prisma, p') := evaluate production p in
    let '(rest, p'') := reload production k p' in
    (prisma :: rest, p'')
  end.

End PrismaSingleton.

(** ** Collaborators to run the program on *)

(** An in-memory [User] table with a unique index on [email], which can
    be offline: every query throws then. *)
Module MemoryStore.

Record t := {
  table : list User.t;
  online : bool
}.

Definition has_email (e : string) (u : User.t) : bool :=
  match User.email u with
  | Some e' => String.eqb e' e
  | None => false
  end.

Definition unreachable : exn :=
  Error "PrismaClientInitializationError" "Can't reach database server".

Definition lookup (db : t) (e : string) : completion (option User.t) :=
  if online db then Return (find (has_email e) (table db)) else Throw unreachable.

Definition new_row (d : UserCreateInput.t) : User.t :=
  {| User.id := "c" ++ UserCreateInput.email d;
     User.name := Some (UserCreateInput.name d);
     User.email := Some (UserCreateInput.email d);
     User.emailVerified := None;
     User.image := None;
     User.password := Some (UserCreateInput.password d) |}.

Definition insert (db : t) (d : UserCreateInput.t) : completion (User.t * t) :=
  if online db then
    if existsb (has_email (UserCreateInput.email d)) (table db)
    then Throw (Error "PrismaClientKnownRequestError" "P2002")
    else Return (new_row d, {| table := (table db ++ [new_row d])%list; online := true |})
  else Throw unreachable.

#[global] Instance persistence : Persistence t := {
  users := table;
  findUnique := lookup;
  findFirst := lookup;
  create := insert
}.

End MemoryStore.

(** A stand-in for bcrypt that tags the plaintext with the cost prefix;
    it throws on an empty plaintext. *)
Module TagHasher.

Definition tag (plaintext : string) : string := "$2b$10$" ++ plaintext.

Definition hash (plaintext : string) (cost : Z) : completion string :=
  if String.eqb plaintext "" then Throw (Error "Error" "data and salt arguments required")
  else Return (tag plaintext).

Definition compare (plaintext h : string) : completion bool :=
  if String.eqb plaintext "" then Throw (Error "Error" "data and hash arguments required")
  else Return (String.eqb h (tag plaintext)).

#[global] Instance bcrypt : Bcrypt := {
  bcrypt_hash := hash;
  bcrypt_compare := compare
}.

End TagHasher.

(** ** Requests to run the Edge Gate on *)

Module Requests.
Import Middleware.

Definition alice_session : Session.t :=
  {| Session.user :=
       Some {| SessionUser.id := Some "cku1"; SessionUser.name := Some "Alice";
               SessionUser.email := Some "alice@example.com"; SessionUser.image := None |};
     Session.expires := "2026-01-01T00:00:00.000Z" |}.

Definition bob_session : Session.t :=
  {| Session.user :=
       Some {| SessionUser.id := Some "cku2"; SessionUser.name := Some "Bob";
               SessionUser.email := Some "bob@example.com"; SessionUser.image := None |};
     Session.expires := "2027-06-30T12:00:00.000Z" |}.

Definition get (o path query : string) (s : option Session.t) : Request :=
  {| nextUrl := {| origin := o; pathname := path; search := query |};
     auth := s; method := "GET"; headers := [] |}.

Definition post (o path : string) (s : option Session.t) : Request :=
  {| nextUrl := {| origin := o; pathname := path; search := "" |};
     auth := s; method := "POST";
     headers := [("content-type", "application/json")] |}.

End Requests.

(** ** A world to run the handlers in *)

Module Fixture.

Definition alice : User.t :=
  {| User.id := "cku1";
     User.name := Some "Alice";
     User.email := Some "alice@example.com";
     User.emailVerified := None;
     User.image := None;
     User.password := Some (TagHasher.tag "hunter2") |}.

(** A user who signed up with GitHub: no password. *)
Definition carol : User.t :=
  {| User.id := "cku3";
     User.name := Some "Carol";
     User.email := Some "carol@example.com";
     User.emailVerified := None;
     User.image := Some "https://avatars.example.com/carol.png";
     User.password := None |}.

Definition world : World MemoryStore.t :=
  {| store := {| MemoryStore.table := [alice; carol]; MemoryStore.online := true |};
     console := [] |}.

Definition offline_world : World MemoryStore.t :=
  {| store := {| MemoryStore.table := [alice; carol]; MemoryStore.online := false |};
     console := [] |}.

Definition register (n e p : string) : Register.Request :=
  {| Register.json :=
       Return {| Register.name := n; Register.email := e; Register.password := p |} |}.

(** A registration with the email of [alice], and one with an email
    no row has. *)
Definition taken : Register.Request :=
  register "Alice Again" "alice@example.com" "correct horse".

Definition fresh : Register.Request := register "Dave" "dave@example.com" "s3cret".

(** A [signIn] that behaves as Auth.js does towards the action: invalid
    credentials throw the [CredentialsSignin] error, a missing field a
    different [AuthError], and a successful sign-in throws the redirect
    of Next.js. *)
Definition signIn (provider : string) (options : AuthControl.SignInOptions)
  : Run MemoryStore.t unit :=
  fun w =>
    match AuthControl.email options, AuthControl.password options with
    | Some e, Some p =>
      match Auth.authorize (Auth.Submitted e p) w with
      | (Return (Some _), w') => (Throw (Error "NEXT_REDIRECT" (AuthControl.redirectTo options)), w')
      | (_, w') => (Throw (AuthError "CredentialsSignin"), w')
      end
    | _, _ => (Throw (AuthError "CallbackRouteError"), w)
    end.

Definition blank_token : JWT.t :=
  {| JWT.sub := Some "cku1"; JWT.name := Some "Alice";
     JWT.email := Some "alice@example.com"; JWT.picture := None;
     JWT.exp := 1767225600; JWT.id := None |}.

(** A session object that carries no [user]. *)
Definition userless_session : Session.t :=
  {| Session.user := None; Session.expires := "2026-01-01T00:00:00.000Z" |}.

End Fixture.

(** ** A history to run the endpoint after *)

(** The world after [fresh], then a rejected registration, another
    accepted one and a failed sign-in attempt. *)
Definition busy_world : World MemoryStore.t :=
  snd (Auth.authorize (Auth.Submitted "dave@example.com" "guess")
         (snd (Register.POST (Fixture.register "Erin" "erin@example.com" "pa55word")
                 (snd (Register.POST Fixture.taken
                         (snd (Register.POST Fixture.fresh Fixture.world))))))).

(** ** Views to run the forms in *)

Module Views.

Definition blank_login_view : World LoginPage.View :=
  {| store := {| LoginPage.loading := false; LoginPage.toasts := [];
                 LoginPage.pushed := []; LoginPage.resets := 0; LoginPage.updates := 0 |};
     console := [] |}.

Definition blank_register_view : World RegisterPage.View :=
  {| store := {| RegisterPage.loading := false; RegisterPage.toasts := [];
                 RegisterPage.pushed := []; RegisterPage.logged := [] |};
     console := [] |}.

End Views.

(** * Part II: the properties *)

(** ** Strings *)

Lemma startsWith_append (p s : string) : startsWith (p ++ s) p = true.
Proof.
  unfold startsWith. induction p as [|c p IH]; simpl.
  - now destruct s.
  - destruct (ascii_dec c c) as [_|ne]; [exact IH | now elim ne].
Qed.

Lemma startsWith_split (s p : string) :
  startsWith s p = true -> exists rest, s = p ++ rest.
Proof.
  unfold startsWith. revert s. induction p as [|c p IH]; intros s H.
  - now exists s.
  - destruct s as [|d s]; simpl in H; [discriminate|].
    destruct (ascii_dec c d) as [->|]; [|discriminate].
    destruct (IH _ H) as [rest ->]. now exists rest.
Qed.

Lemma append_length (a b : string) :
  String.length (a ++ b) = String.length a + String.length b.
Proof. induction a; simpl; congruence. Qed.

Lemma eqb_append_nonempty (p s : string) :
  s <> "" -> String.eqb (p ++ s) p = false.
Proof.
  intros Hs. apply String.eqb_neq. intros E.
  apply (f_equal String.length) in E. rewrite append_length in E.
  destruct s; [now elim Hs | simpl in E; lia].
Qed.

(** ** The Edge Gate *)

Section EdgeGate.
Import Middleware.

Lemma isPublicRoute_eqb (req : Request) :
  isPublicRoute req =
  String.eqb (pathname (nextUrl req)) "/signin" || String.eqb (pathname (nextUrl req)) "/signup".
Proof. unfold isPublicRoute, includes. simpl. now rewrite orb_false_r. Qed.

(** C3. The callback carries out the routing table of the specification:
    the path is classified with the auth-API check first, as auth API,
    public ("/signin" or "/signup"), protected (prefix "/dashboard") or
    other, and the action of the table for that class and the presence
    of a session is what the callback returns, a redirect being to the
    target route on the request's own origin. *)
Theorem middleware_follows_routing_table (req : Request) :
  middleware req =
  respond (nextUrl req)
    (routing_table (classify (pathname (nextUrl req))) (isLoggedIn req)).
Proof.
  unfold middleware, classify, isApiAuthRoute, isProtectedRoute.
  rewrite isPublicRoute_eqb.
  destruct (startsWith (pathname (nextUrl req)) "/api/auth"); [reflexivity|].
  destruct (String.eqb (pathname (nextUrl req)) "/signin"
            || String.eqb (pathname (nextUrl req)) "/signup").
  - now destruct (isLoggedIn req).
  - destruct (startsWith (pathname (nextUrl req)) "/dashboard");
      now destruct (isLoggedIn req).
Qed.

Lemma isPublicRoute_In (req : Request) :
  isPublicRoute req = true <-> In (pathname (nextUrl req)) ["/signin"; "/signup"].
Proof.
  unfold isPublicRoute, includes. rewrite existsb_exists. split.
  - intros [x [Hx Hq]]. apply String.eqb_eq in Hq. now subst x.
  - intros Hin. exists (pathname (nextUrl req)). split; [exact Hin | apply String.eqb_refl].
Qed.

(** The rows of the table, read off the callback one by one. *)
Lemma middleware_auth_api (req : Request) :
  startsWith (pathname (nextUrl req)) "/api/auth" = true ->
  middleware req = Undefined.
Proof. intros E. unfold middleware, isApiAuthRoute. now rewrite E. Qed.

Lemma middleware_public (req : Request) :
  startsWith (pathname (nextUrl req)) "/api/auth" = false ->
  In (pathname (nextUrl req)) ["/signin"; "/signup"] ->
  middleware req =
  if isLoggedIn req then Redirect (new_URL "/dashboard" (nextUrl req)) else Undefined.
Proof.
  intros E Hin. apply isPublicRoute_In in Hin.
  unfold middleware, isApiAuthRoute. now rewrite E, Hin.
Qed.

Lemma middleware_protected (req : Request) :
  startsWith (pathname (nextUrl req)) "/api/auth" = false ->
  ~ In (pathname (nextUrl req)) ["/signin"; "/signup"] ->
  startsWith (pathname (nextUrl req)) "/dashboard" = true ->
  middleware req =
  if isLoggedIn req then Undefined else Redirect (new_URL "/signin" (nextUrl req)).
Proof.
  intros E Hnin P. rewrite <- isPublicRoute_In in Hnin. apply not_true_is_false in Hnin.
  unfold middleware, isApiAuthRoute, isProtectedRoute. rewrite E, P, Hnin.
  now destruct (isLoggedIn req).
Qed.

Lemma middleware_other (req : Request) :
  startsWith (pathname (nextUrl req)) "/api/auth" = false ->
  ~ In (pathname (nextUrl req)) ["/signin"; "/signup"] ->
  startsWith (pathname (nextUrl req)) "/dashboard" = false ->
  middleware req = Undefined.
Proof.
  intros E Hnin P. rewrite <- isPublicRoute_In in Hnin. apply not_true_is_false in Hnin.
  unfold middleware, isApiAuthRoute, isProtectedRoute. now rewrite E, P, Hnin.
Qed.

(** C9. The action of the gate is a function of the path and of the
    presence of a session alone: two requests that agree on both get the
    same action, pass through or redirect to the same target route,
    whatever their origin, query, method, headers or session content;
    each redirect is that action carried out on the request's own URL. *)
Theorem middleware_depends_on_path_and_session_only (r1 r2 : Request) :
  pathname (nextUrl r1) = pathname (nextUrl r2) ->
  isLoggedIn r1 = isLoggedIn r2 ->
  action_of (middleware r1) = action_of (middleware r2) /\
  middleware r1 = respond (nextUrl r1) (action_of (middleware r2)).
Proof.
  intros Hpath Hsession.
  unfold middleware, isApiAuthRoute, isPublicRoute, isProtectedRoute.
  rewrite Hpath, Hsession.
  destruct (startsWith (pathname (nextUrl r2)) "/api/auth"); [now split|].
  destruct (includes ["/signin"; "/signup"] (pathname (nextUrl r2))).
  - destruct (isLoggedIn r2); now split.
  - destruct (startsWith (pathname (nextUrl r2)) "/dashboard"), (isLoggedIn r2);
      now split.
Qed.

Lemma middleware_depends_on_path_and_session_only_witness :
  action_of (middleware (Requests.get "http://localhost:3000" "/dashboard" "?tab=1" None)) =
  action_of (middleware (Requests.post "https://app.example.com" "/dashboard" None)) /\
  action_of (middleware (Requests.get "http://localhost:3000" "/signin" "" (Some Requests.alice_session))) =
  action_of (middleware (Requests.post "https://app.example.com" "/signin" (Some Requests.bob_session))).
Proof.
  split.
  - apply (middleware_depends_on_path_and_session_only
             (Requests.get "http://localhost:3000" "/dashboard" "?tab=1" None)
             (Requests.post "https://app.example.com" "/dashboard" None));
      reflexivity.
  - apply (middleware_depends_on_path_and_session_only
             (Requests.get "http://localhost:3000" "/signin" "" (Some Requests.alice_session))
             (Requests.post "https://app.example.com" "/signin" (Some Requests.bob_session)));
      reflexivity.
Defined.

(** C10. Public routes are matched by equality and protected routes by
    prefix: with a session, a path that properly extends "/signin" or
    "/signup" passes through; without a session, every path that starts
    with "/dashboard" is redirected to "/signin". *)
Theorem middleware_public_exact_protected_prefix :
  (forall (req : Request) (route extension : string),
     In route ["/signin"; "/signup"] ->
     extension <> "" ->
     pathname (nextUrl req) = route ++ extension ->
     isLoggedIn req = true ->
     middleware req = Undefined) /\
  (forall req : Request,
     startsWith (pathname (nextUrl req)) "/dashboard" = true ->
     isLoggedIn req = false ->
     middleware req = Redirect (new_URL "/signin" (nextUrl req))).
Proof.
  split.
  - intros req route extension Hroute Hext Hpath Hsession.
    unfold middleware, isApiAuthRoute, isPublicRoute, isProtectedRoute, includes.
    rewrite Hpath, Hsession.
    destruct Hroute as [<-|[<-|[]]].
    + cbn [existsb]. rewrite (eqb_append_nonempty "/signin" extension Hext).
      now destruct (startsWith ("/signin" ++ extension) "/dashboard").
    + cbn [existsb]. rewrite (eqb_append_nonempty "/signup" extension Hext).
      now destruct (startsWith ("/signup" ++ extension) "/dashboard").
  - intros req Hprefix Hsession.
    destruct (startsWith_split _ _ Hprefix) as [rest Hpath].
    unfold middleware, isApiAuthRoute, isPublicRoute, isProtectedRoute, includes.
    rewrite Hsession, Hpath, startsWith_append. reflexivity.
Qed.

(** The gate on the paths the specification names. *)
Example dashboard_without_session :
  middleware (Requests.get "http://localhost:3000" "/dashboard" "" None) =
  Redirect {| origin := "http://localhost:3000"; pathname := "/signin"; search := "" |}.
Proof. reflexivity. Qed.

Example signin_with_session :
  middleware (Requests.get "http://localhost:3000" "/signin" "" (Some Requests.alice_session)) =
  Redirect {| origin := "http://localhost:3000"; pathname := "/dashboard"; search := "" |}.
Proof. reflexivity. Qed.

Example api_auth_any_session :
  middleware (Requests.post "http://localhost:3000" "/api/auth/register" None) = Undefined /\
  middleware (Requests.get "http://localhost:3000" "/api/auth/session" "" (Some Requests.alice_session)) = Undefined.
Proof. split; reflexivity. Qed.

Example signin_extension_with_session :
  middleware (Requests.get "http://localhost:3000" "/signin/anything" "" (Some Requests.alice_session)) = Undefined.
Proof. reflexivity. Qed.

Example dashboards_without_session :
  middleware (Requests.get "http://localhost:3000" "/dashboards" "" None) =
  Redirect {| origin := "http://localhost:3000"; pathname := "/signin"; search := "" |}.
Proof. reflexivity. Qed.

End EdgeGate.

(** ** The Credentials Authorizer *)

(** Unfolds the effect combinators in the goal. *)
Ltac run_step :=
  unfold try_catch, bind, ret, throw, await, console_error,
    prisma_user_findUnique, prisma_user_findFirst, prisma_user_create; cbn.

Lemma truthy_Some (h : string) : truthy (Some h) = true <-> h <> "".
Proof.
  unfold truthy. rewrite negb_true_iff. apply String.eqb_neq.
Qed.

Section CredentialsAuthorizer.
Import Auth.
Context {DB : Type} `{Persistence DB} `{Bcrypt}.

(** [authorize] once the lookup has returned a user with a truthy
    password: the result follows the comparison. *)
Lemma authorize_found (w : World DB) (email password : string) (u : User.t) (h : string) :
  findUnique (store w) email = Return (Some u) ->
  User.password u = Some h ->
  h <> "" ->
  authorize (Submitted email password) w =
  match bcrypt_compare password h with
  | Return true => (Return (Some u), w)
  | Return false => (Return None, w)
  | Throw e =>
    (Return None,
     {| store := store w; console := (console w ++ [("Authorize error:", e)])%list |})
  end.
Proof.
  intros Hfind Hpw Hne. apply truthy_Some in Hne.
  unfold authorize, credentials_email, credentials_password. run_step.
  rewrite Hfind, Hpw, Hne. run_step.
  destruct (bcrypt_compare password h) as [[|]|e]; reflexivity.
Qed.

(** C1. When the lookup by the submitted email returns a stored user
    with a stored (non-empty) password hash, [authorize] returns that
    user if the comparison of the submitted password with the hash
    succeeds, returns null if it fails, and returns the user in no other
    case. *)
Theorem authorize_returns_user_iff_password_matches
    (w : World DB) (email password : string) (u : User.t) (h : string) :
  findUnique (store w) email = Return (Some u) ->
  User.password u = Some h ->
  h <> "" ->
  (bcrypt_compare password h = Return true ->
   authorize (Submitted email password) w = (Return (Some u), w)) /\
  (bcrypt_compare password h = Return false ->
   authorize (Submitted email password) w = (Return None, w)) /\
  (fst (authorize (Submitted email password) w) = Return (Some u) <->
   bcrypt_compare password h = Return true).
Proof.
  intros Hfind Hpw Hne.
  pose proof (authorize_found w email password u h Hfind Hpw Hne) as Hrun.
  repeat split.
  - intros Hc. now rewrite Hrun, Hc.
  - intros Hc. now rewrite Hrun, Hc.
  - rewrite Hrun. destruct (bcrypt_compare password h) as [[|]|e]; cbn;
      [reflexivity | discriminate | discriminate].
  - intros Hc. now rewrite Hrun, Hc.
Qed.

(** [authorize] returns, with the store untouched; the value is the
    user found only when the comparison answers true. *)
Lemma authorize_returns (credentials : Credentials) (w : World DB) :
  fst (authorize credentials w) =
  Return
    match credentials with
    | Submitted email password =>
      match findUnique (store w) email with
      | Return (Some u) =>
        match User.password u with
        | Some h =>
          if truthy (Some h) then
            match bcrypt_compare password h with
            | Return true => Some u
            | _ => None
            end
          else None
        | None => None
        end
      | _ => None
      end
    | _ => None
    end /\
  store (snd (authorize credentials w)) = store w.
Proof.
  unfold authorize, credentials_email, credentials_password.
  destruct credentials as [| |email password]; run_step;
    [split; reflexivity | split; reflexivity |].
  destruct (findUnique (store w) email) as [[u|]|e];
    [|split; reflexivity|split; reflexivity].
  destruct (User.password u) as [h|]; [|split; reflexivity].
  destruct (truthy (Some h)); [|split; reflexivity]. run_step.
  destruct (bcrypt_compare password h) as [[|]|e]; split; reflexivity.
Qed.

(** C2. [authorize] always returns and never throws, and it leaves the
    store as it was; the result is null when the credentials are null
    (or undefined), when the lookup finds no row, when the row found has
    no password hash (none, or an empty one), and when the lookup or the
    comparison throws. *)
Theorem authorize_total_and_fail_closed (credentials : Credentials) (w : World DB) :
  (exists result, fst (authorize credentials w) = Return result) /\
  store (snd (authorize credentials w)) = store w /\
  (credentials = Null -> authorize credentials w = (Return None, w)) /\
  (credentials = Undefined -> fst (authorize credentials w) = Return None) /\
  (forall email password, credentials = Submitted email password ->
     (findUnique (store w) email = Return None ->
      authorize credentials w = (Return None, w)) /\
     (forall u, findUnique (store w) email = Return (Some u) ->
                truthy (User.password u) = false ->
                authorize credentials w = (Return None, w)) /\
     (forall e, findUnique (store w) email = Throw e ->
                fst (authorize credentials w) = Return None) /\
     (forall u h e, findUnique (store w) email = Return (Some u) ->
                    User.password u = Some h ->
                    bcrypt_compare password h = Throw e ->
                    fst (authorize credentials w) = Return None)).
Proof.
  destruct (authorize_returns credentials w) as [Hvalue Hstore].
  split; [eexists; exact Hvalue|].
  split; [exact Hstore|].
  split; [now intros ->|].
  split; [intros ->; exact Hvalue|].
  intros email password ->. repeat split.
  - intros Hfind. unfold authorize, credentials_email. run_step. now rewrite Hfind.
  - intros u Hfind Hfalsy. unfold authorize, credentials_email. run_step.
    rewrite Hfind. destruct (User.password u) as [h|]; [|reflexivity].
    now rewrite Hfalsy.
  - intros e Hfind. rewrite Hvalue. cbn. now rewrite Hfind.
  - intros u h e Hfind Hpw Hc. rewrite Hvalue. cbn. rewrite Hfind, Hpw, Hc.
    now destruct (truthy (Some h)).
Qed.

End CredentialsAuthorizer.

Section CredentialsAuthorizerRuns.
Import Auth Fixture.

Lemma authorize_returns_user_iff_password_matches_witness :
  authorize (Submitted "alice@example.com" "hunter2") world = (Return (Some alice), world) /\
  authorize (Submitted "alice@example.com" "hunter3") world = (Return None, world).
Proof.
  split.
  - apply (authorize_returns_user_iff_password_matches
             world "alice@example.com" "hunter2" alice (TagHasher.tag "hunter2"));
      [reflexivity | reflexivity | discriminate | reflexivity].
  - apply (authorize_returns_user_iff_password_matches
             world "alice@example.com" "hunter3" alice (TagHasher.tag "hunter2"));
      [reflexivity | reflexivity | discriminate | reflexivity].
Defined.

Example authorize_null : authorize Null world = (Return None, world).
Proof. reflexivity. Qed.

Example authorize_unknown_email :
  authorize (Submitted "mallory@example.com" "hunter2") world = (Return None, world).
Proof. reflexivity. Qed.

Example authorize_user_without_password :
  authorize (Submitted "carol@example.com" "hunter2") world = (Return None, world).
Proof. reflexivity. Qed.

Example authorize_store_offline :
  authorize (Submitted "alice@example.com" "hunter2") offline_world =
  (Return None,
   {| store := store offline_world;
      console := [("Authorize error:", MemoryStore.unreachable)] |}).
Proof. reflexivity. Qed.

Example authorize_compare_throws :
  fst (authorize (Submitted "alice@example.com" "") world) = Return None.
Proof. reflexivity. Qed.

End CredentialsAuthorizerRuns.

(** ** The token and session callbacks *)

Section Callbacks.
Import Auth.

Lemma refreshed_fixed (n : nat) (token : JWT.t) : refreshed n token = token.
Proof. induction n as [|n IH]; [reflexivity | exact IH]. Qed.

Lemma session_expires (s : Session.t) (token : JWT.t) :
  Session.expires (session s token) = Session.expires s.
Proof. unfold session. now destruct (Session.user s). Qed.

(** The guard of the callback: a session object without a [user], which
    a session read never passes, is returned as it is, and no id is
    readable from it. *)
Lemma session_without_user_carries_no_id :
  session_user_id
    (session Fixture.userless_session (jwt Fixture.blank_token (Some Fixture.alice))) <>
  JWT.id (jwt Fixture.blank_token (Some Fixture.alice)).
Proof. cbn. discriminate. Qed.

(** C7. The [jwt] callback sets the id claim to the user's id when a
    user object is present (the sign-in) and returns the token as it is
    otherwise, so the claim is the same after every refresh. The
    [session] callback copies the id claim into [session.user.id] on
    every session read, and more generally for every session object that
    has a [user]. Hence once a user signed in, every session read, after
    any number of refreshes, yields the id of that user. *)
Theorem callbacks_preserve_user_id :
  (forall token u, JWT.id (jwt token (Some u)) = Some (User.id u)) /\
  (forall token, jwt token None = token) /\
  (forall n token, JWT.id (refreshed n token) = JWT.id token) /\
  (forall token expires,
     session_user_id (session_read token expires) = JWT.id token) /\
  (forall s su token,
     Session.user s = Some su ->
     session_user_id (session s token) = JWT.id token) /\
  (forall token u n expires,
     session_user_id (session_read (refreshed n (jwt token (Some u))) expires) =
     Some (User.id u)).
Proof.
  split; [reflexivity|]. split; [reflexivity|].
  split; [intros n token; now rewrite refreshed_fixed|].
  split; [reflexivity|].
  split.
  - intros s su token Huser. unfold session_user_id, session. now rewrite Huser.
  - intros token u n expires. now rewrite refreshed_fixed.
Qed.

Example session_read_after_refreshes :
  session_user_id
    (session_read (refreshed 3 (jwt Fixture.blank_token (Some Fixture.alice)))
       "2026-01-01T00:00:00.000Z") =
  Some "cku1".
Proof. reflexivity. Qed.

End Callbacks.

(** ** The credential-login server action *)

Section CredentialLogin.
Import AuthControl.
Context {DB : Type}.
Variable signIn : string -> SignInOptions -> Run DB unit.

(** C8. When the fields can be read off [data] and [signIn] throws: an
    [AuthError] of type [CredentialsSignin] makes the action return
    [{ error: "Invalid credentials." }], any other [AuthError] makes it
    return [{ error: "Something went wrong." }], and any other exception
    is thrown again by the action. *)
Theorem doCredentialLogin_maps_errors
    (data : LoginData) (w w' : World DB) (fields : option string * option string)
    (thrown : exn) :
  read_fields data w = (Return fields, w) ->
  signIn "credentials"
    {| email := fst fields; password := snd fields; redirectTo := "/dashboard" |} w =
  (Throw thrown, w') ->
  (thrown = AuthError "CredentialsSignin" ->
   doCredentialLogin signIn data w =
   (Return (Some {| error := "Invalid credentials." |}), w')) /\
  (forall type, thrown = AuthError type -> type <> "CredentialsSignin" ->
   doCredentialLogin signIn data w =
   (Return (Some {| error := "Something went wrong." |}), w')) /\
  (forall name message, thrown = Error name message ->
   doCredentialLogin signIn data w = (Throw thrown, w')).
Proof.
  intros Hread Hsign.
  unfold doCredentialLogin. run_step. rewrite Hread, Hsign.
  split; [|split].
  - now intros ->.
  - intros type -> Hother. apply String.eqb_neq in Hother. now rewrite Hother.
  - now intros name message ->.
Qed.

(** Without an exception the action returns [undefined]. *)
Lemma doCredentialLogin_signed_in
    (data : LoginData) (w w' : World DB) (fields : option string * option string) :
  read_fields data w = (Return fields, w) ->
  signIn "credentials"
    {| email := fst fields; password := snd fields; redirectTo := "/dashboard" |} w =
  (Return tt, w') ->
  doCredentialLogin signIn data w = (Return None, w').
Proof.
  intros Hread Hsign. unfold doCredentialLogin. run_step. now rewrite Hread, Hsign.
Qed.

(** The exception of reading a field off nothing is not an [AuthError]. *)
Lemma doCredentialLogin_nullish (w : World DB) :
  exists message, doCredentialLogin signIn Nullish w = (Throw (Error "TypeError" message), w).
Proof. eexists. reflexivity. Qed.

End CredentialLogin.

Section CredentialLoginRuns.
Import AuthControl Fixture.

Lemma doCredentialLogin_maps_errors_witness :
  doCredentialLogin signIn (FormObject (Some "alice@example.com") (Some "hunter3")) world =
  (Return (Some {| error := "Invalid credentials." |}), world) /\
  doCredentialLogin signIn (FormData [("email", "alice@example.com")]) world =
  (Return (Some {| error := "Something went wrong." |}), world) /\
  doCredentialLogin signIn
    (FormData [("email", "alice@example.com"); ("password", "hunter2")]) world =
  (Throw (Error "NEXT_REDIRECT" "/dashboard"), world).
Proof.
  split; [|split].
  - apply (doCredentialLogin_maps_errors signIn
             (FormObject (Some "alice@example.com") (Some "hunter3")) world world
             (Some "alice@example.com", Some "hunter3")
             (AuthError "CredentialsSignin") eq_refl eq_refl).
    reflexivity.
  - apply (doCredentialLogin_maps_errors signIn
             (FormData [("email", "alice@example.com")]) world world
             (Some "alice@example.com", None)
             (AuthError "CallbackRouteError") eq_refl eq_refl) with (type := "CallbackRouteError").
    + reflexivity.
    + discriminate.
  - apply (doCredentialLogin_maps_errors signIn
             (FormData [("email", "alice@example.com"); ("password", "hunter2")]) world world
             (Some "alice@example.com", Some "hunter2")
             (Error "NEXT_REDIRECT" "/dashboard") eq_refl eq_refl)
      with (name := "NEXT_REDIRECT") (message := "/dashboard").
    reflexivity.
Defined.

End CredentialLoginRuns.

(** ** The registration endpoint *)

Section Registration.
Import Register.
Context {DB : Type} `{Persistence DB} `{Bcrypt}.

Lemma POST_raises (request : Request) (w : World DB) (e : exn) :
  raises request w e ->
  POST request w = (Return (Response_json false "Something went wrong" 500), logged e w).
Proof.
  intros [e' Hjson | body e' Hjson Hhash | body h e' Hjson Hhash Hfind
         | body h e' Hjson Hhash Hfind Hcreate];
    unfold POST; run_step; rewrite Hjson; try rewrite Hhash; try rewrite Hfind;
    run_step; try rewrite Hcreate; reflexivity.
Qed.

Lemma POST_duplicate (request : Request) (w : World DB) (body : Body) (h : string) (u : User.t) :
  json request = Return body ->
  bcrypt_hash (password body) 10 = Return h ->
  findFirst (store w) (email body) = Return (Some u) ->
  POST request w = (Return (Response_json false "Email already exists" 401), w).
Proof.
  intros Hjson Hhash Hfind. unfold POST. run_step. now rewrite Hjson, Hhash, Hfind.
Qed.

Lemma POST_created (request : Request) (w : World DB) (body : Body) (h : string)
    (u : User.t) (db' : DB) :
  json request = Return body ->
  bcrypt_hash (password body) 10 = Return h ->
  findFirst (store w) (email body) = Return None ->
  create (store w) (user_data body h) = Return (u, db') ->
  POST request w =
  (Return (Response_json true "User created successfully" 200),
   {| store := db'; console := console w |}).
Proof.
  intros Hjson Hhash Hfind Hcreate. unfold POST. run_step.
  rewrite Hjson, Hhash, Hfind. run_step. now rewrite Hcreate.
Qed.

Context `{!PersistenceLaws DB}.

(** Under the laws of the client, a lookup that returns answers whether
    a row shares the email. *)
Lemma findFirst_found (db : DB) (e : string) (r : option User.t) :
  findFirst db e = Return r ->
  (exists u, In u (users db) /\ User.email u = Some e) ->
  exists u, r = Some u.
Proof.
  intros Hfind [u [Hin Hemail]]. destruct r as [u'|]; [now exists u'|].
  now elim (findFirst_miss db e Hfind u Hin).
Qed.

Lemma findFirst_unused (db : DB) (e : string) (r : option User.t) :
  findFirst db e = Return r ->
  (forall u, In u (users db) -> User.email u <> Some e) ->
  r = None.
Proof.
  intros Hfind Hunused. destruct r as [u|]; [|reflexivity].
  destruct (findFirst_hit db e u Hfind) as [Hin Hemail]. now elim (Hunused u Hin).
Qed.

(** C4. The handler always answers, with one of three statuses. If an
    exception is thrown it answers 500 with the generic message. If none
    is thrown: when a row shares the submitted email it answers 401,
    success=false, with the duplicate message, which differs from the
    generic one; when no row shares it, it inserts the new row and
    answers 200, success=true. *)
Theorem POST_answers_200_401_500 (request : Request) (w : World DB) :
  (forall e, raises request w e ->
     POST request w =
     (Return (Response_json false "Something went wrong" 500), logged e w)) /\
  ((forall e, ~ raises request w e) ->
   forall body, json request = Return body ->
     ((exists u, In u (users (store w)) /\ User.email u = Some (email body)) ->
      POST request w = (Return (Response_json false "Email already exists" 401), w)) /\
     ((forall u, In u (users (store w)) -> User.email u <> Some (email body)) ->
      exists u w',
        POST request w =
        (Return (Response_json true "User created successfully" 200), w') /\
        users (store w') = (users (store w) ++ [u])%list /\
        User.email u = Some (email body))) /\
  (exists response w',
     POST request w = (Return response, w') /\ In (status response) [200; 401; 500]%Z) /\
  message (Response_json false "Email already exists" 401) <>
  message (Response_json false "Something went wrong" 500).
Proof.
  split; [exact (POST_raises request w)|].
  split; [|split; [|discriminate]].
  - intros Hquiet body Hjson.
    destruct (bcrypt_hash (password body) 10) as [h|e] eqn:Hhash;
      [|elim (Hquiet e); eapply hash_raises; eassumption].
    destruct (findFirst (store w) (email body)) as [r|e] eqn:Hfind;
      [|elim (Hquiet e); eapply findFirst_raises; eassumption].
    split.
    + intros Hshared. destruct (findFirst_found _ _ _ Hfind Hshared) as [u ->].
      exact (POST_duplicate request w body h u Hjson Hhash Hfind).
    + intros Hunused. rewrite (findFirst_unused _ _ _ Hfind Hunused) in Hfind.
      destruct (create (store w) (user_data body h)) as [[u db']|e] eqn:Hcreate;
        [|elim (Hquiet e); eapply create_raises; eassumption].
      exists u, {| store := db'; console := console w |}.
      split; [exact (POST_created request w body h u db' Hjson Hhash Hfind Hcreate)|].
      destruct (create_appends _ _ _ _ Hcreate) as [Husers [_ [Hemail _]]].
      split; [exact Husers | exact Hemail].
  - destruct (json request) as [body|e] eqn:Hjson.
    2: { eexists _, _. split; [apply POST_raises; eapply json_raises; eassumption|]. cbn. tauto. }
    destruct (bcrypt_hash (password body) 10) as [h|e] eqn:Hhash.
    2: { eexists _, _.
         split; [apply POST_raises; eapply hash_raises; eassumption|]. cbn. tauto. }
    destruct (findFirst (store w) (email body)) as [[u|]|e] eqn:Hfind.
    + eexists _, _. split; [eapply POST_duplicate; eassumption|]. cbn. tauto.
    + destruct (create (store w) (user_data body h)) as [[u db']|e] eqn:Hcreate.
      * eexists _, _. split; [eapply POST_created; eassumption|]. cbn. tauto.
      * eexists _, _.
        split; [apply POST_raises; eapply create_raises; eassumption|]. cbn. tauto.
    + eexists _, _.
      split; [apply POST_raises; eapply findFirst_raises; eassumption|]. cbn. tauto.
Qed.

(** C5. A request whose email is that of an existing row leaves the
    store as it was, whatever else happens: the handler answers, the
    answer is not the 200 of an insert, and the store after the request
    is the store before it, the existing row included. *)
Theorem POST_duplicate_leaves_store
    (request : Request) (w : World DB) (body : Body) (existing : User.t) :
  json request = Return body ->
  In existing (users (store w)) ->
  User.email existing = Some (email body) ->
  exists response w',
    POST request w = (Return response, w') /\
    status response <> 200%Z /\
    store w' = store w /\
    users (store w') = users (store w) /\
    In existing (users (store w')).
Proof.
  intros Hjson Hin Hemail.
  destruct (bcrypt_hash (password body) 10) as [h|e] eqn:Hhash.
  2: { eexists _, _. split; [apply POST_raises; eapply hash_raises; eassumption|].
       cbn. repeat split; [discriminate | exact Hin]. }
  destruct (findFirst (store w) (email body)) as [r|e] eqn:Hfind.
  2: { eexists _, _. split; [apply POST_raises; eapply findFirst_raises; eassumption|].
       cbn. repeat split; [discriminate | exact Hin]. }
  destruct (findFirst_found _ _ _ Hfind (ex_intro _ existing (conj Hin Hemail))) as [u ->].
  eexists _, _. split; [exact (POST_duplicate request w body h u Hjson Hhash Hfind)|].
  cbn. repeat split; [discriminate | exact Hin].
Qed.

(** C6. A request with a previously unused email, handled without an
    exception, inserts exactly one row: the table after the request is
    the table before it followed by one row, which has the submitted
    email and whose password field is the hash of the submitted password
    at cost 10; as the hash of a plaintext is never the plaintext, that
    field is never the submitted plaintext. *)
Theorem POST_stores_hash_never_plaintext
    (request : Request) (w : World DB) (body : Body) :
  never_plaintext _ ->
  json request = Return body ->
  (forall e, ~ raises request w e) ->
  (forall u, In u (users (store w)) -> User.email u <> Some (email body)) ->
  exists h u w',
    bcrypt_hash (password body) 10 = Return h /\
    POST request w = (Return (Response_json true "User created successfully" 200), w') /\
    users (store w') = (users (store w) ++ [u])%list /\
    User.email u = Some (email body) /\
    User.password u = Some h /\
    User.password u <> Some (password body).
Proof.
  intros Hnever_plaintext Hjson Hquiet Hunused.
  destruct (bcrypt_hash (password body) 10) as [h|e] eqn:Hhash;
    [|elim (Hquiet e); eapply hash_raises; eassumption].
  destruct (findFirst (store w) (email body)) as [r|e] eqn:Hfind;
    [|elim (Hquiet e); eapply findFirst_raises; eassumption].
  rewrite (findFirst_unused _ _ _ Hfind Hunused) in Hfind.
  destruct (create (store w) (user_data body h)) as [[u db']|e] eqn:Hcreate;
    [|elim (Hquiet e); eapply create_raises; eassumption].
  destruct (create_appends _ _ _ _ Hcreate) as [Husers [_ [Hemail Hpassword]]].
  exists h, u, {| store := db'; console := console w |}.
  split; [reflexivity|].
  split; [exact (POST_created request w body h u db' Hjson Hhash Hfind Hcreate)|].
  split; [exact Husers|]. split; [exact Hemail|]. split; [exact Hpassword|].
  rewrite Hpassword. intros [= Heq]. exact (Hnever_plaintext _ _ _ Hhash Heq).
Qed.

End Registration.

(** ** The in-memory store and the stand-in hasher keep the contracts *)

Lemma has_email_true (e : string) (u : User.t) :
  MemoryStore.has_email e u = true <-> User.email u = Some e.
Proof.
  unfold MemoryStore.has_email. destruct (User.email u) as [e'|].
  - rewrite String.eqb_eq. split; congruence.
  - split; discriminate.
Qed.

#[global] Instance MemoryStore_laws : PersistenceLaws MemoryStore.t.
Proof.
  constructor; cbn.
  - intros db e u. unfold MemoryStore.lookup.
    destruct (MemoryStore.online db); [|discriminate].
    intros [= Hfind]. apply find_some in Hfind. now rewrite has_email_true in Hfind.
  - intros db e. unfold MemoryStore.lookup.
    destruct (MemoryStore.online db); [|discriminate].
    intros [= Hfind] u Hin Hemail. apply has_email_true in Hemail.
    pose proof (find_none _ _ Hfind u Hin) as Hno. congruence.
  - intros db d u db'. unfold MemoryStore.insert.
    destruct (MemoryStore.online db); [|discriminate].
    destruct (existsb _ _); [discriminate|].
    intros [= <- <-]. cbn. repeat split.
Qed.

Lemma TagHasher_never_plaintext : never_plaintext TagHasher.bcrypt.
Proof.
  intros plaintext cost h.
  change (bcrypt_hash plaintext cost) with (TagHasher.hash plaintext cost).
  unfold TagHasher.hash, TagHasher.tag.
  destruct (String.eqb plaintext ""); [discriminate|].
  intros [= <-] Heq. apply (f_equal String.length) in Heq.
  cbn in Heq. lia.
Qed.

(** The in-memory store refuses a second row with the same email: the
    duplicate insert the handler guards against would throw. *)
Lemma MemoryStore_unique_index (db : MemoryStore.t) (d : UserCreateInput.t) (u : User.t) :
  In u (MemoryStore.table db) ->
  User.email u = Some (UserCreateInput.email d) ->
  exists e, MemoryStore.insert db d = Throw e.
Proof.
  intros Hin Hemail. unfold MemoryStore.insert.
  destruct (MemoryStore.online db); [|now eexists].
  replace (existsb _ _) with true; [now eexists|].
  symmetry. apply existsb_exists. exists u. split; [exact Hin|now apply has_email_true].
Qed.

(** ** The registration endpoint on the in-memory store *)

Section RegistrationRuns.
Import Register Fixture.

Lemma taken_quiet (e : exn) : ~ raises taken world e.
Proof.
  intros Hr.
  destruct Hr as [x Hj|b x Hj Hh|b h x Hj Hh Hf|b h x Hj Hh Hf Hc];
    cbn in Hj; try discriminate; injection Hj as <-; discriminate.
Qed.

Lemma fresh_quiet (e : exn) : ~ raises fresh world e.
Proof.
  intros Hr.
  destruct Hr as [x Hj|b x Hj Hh|b h x Hj Hh Hf|b h x Hj Hh Hf Hc];
    cbn in Hj; try discriminate; injection Hj as <-; discriminate.
Qed.

Lemma fresh_unused (u : User.t) :
  In u (users (store world)) -> User.email u <> Some "dave@example.com".
Proof. cbn. intros [<-|[<-|[]]]; discriminate. Qed.

Lemma POST_answers_200_401_500_witness :
  POST taken world = (Return (Response_json false "Email already exists" 401), world) /\
  POST fresh offline_world =
  (Return (Response_json false "Something went wrong" 500),
   logged MemoryStore.unreachable offline_world) /\
  exists u w',
    POST fresh world = (Return (Response_json true "User created successfully" 200), w') /\
    users (store w') = [alice; carol; u] /\
    User.email u = Some "dave@example.com".
Proof.
  split; [|split].
  - apply (proj1 (proj2 (POST_answers_200_401_500 taken world)) taken_quiet
             {| name := "Alice Again"; email := "alice@example.com"; password := "correct horse" |}
             eq_refl).
    exists alice. cbn. split; [left|]; reflexivity.
  - apply (proj1 (POST_answers_200_401_500 fresh offline_world)).
    apply (findFirst_raises fresh offline_world
             {| name := "Dave"; email := "dave@example.com"; password := "s3cret" |}
             (TagHasher.tag "s3cret")); reflexivity.
  - apply (proj1 (proj2 (POST_answers_200_401_500 fresh world)) fresh_quiet
             {| name := "Dave"; email := "dave@example.com"; password := "s3cret" |}
             eq_refl).
    exact fresh_unused.
Defined.

Lemma POST_duplicate_leaves_store_witness :
  exists response w',
    POST taken world = (Return response, w') /\
    status response <> 200%Z /\
    store w' = store world /\
    users (store w') = users (store world) /\
    In alice (users (store w')).
Proof.
  apply (POST_duplicate_leaves_store taken world
           {| name := "Alice Again"; email := "alice@example.com"; password := "correct horse" |}
           alice).
  - reflexivity.
  - cbn. left. reflexivity.
  - reflexivity.
Defined.

Lemma POST_stores_hash_never_plaintext_witness :
  exists h u w',
    bcrypt_hash "s3cret" 10 = Return h /\
    POST fresh world = (Return (Response_json true "User created successfully" 200), w') /\
    users (store w') = (users (store world) ++ [u])%list /\
    User.email u = Some "dave@example.com" /\
    User.password u = Some h /\
    User.password u <> Some "s3cret".
Proof.
  apply (POST_stores_hash_never_plaintext fresh world
           {| name := "Dave"; email := "dave@example.com"; password := "s3cret" |}).
  - exact TagHasher_never_plaintext.
  - reflexivity.
  - exact fresh_quiet.
  - exact fresh_unused.
Defined.

(** The runs themselves. *)
Example register_fresh_email :
  POST fresh world =
  (Return (Response_json true "User created successfully" 200),
   {| store :=
        {| MemoryStore.table :=
             [alice; carol;
              {| User.id := "cdave@example.com"; User.name := Some "Dave";
                 User.email := Some "dave@example.com"; User.emailVerified := None;
                 User.image := None; User.password := Some "$2b$10$s3cret" |}];
           MemoryStore.online := true |};
      console := [] |}).
Proof. reflexivity. Qed.

Example register_taken_email :
  POST taken world = (Return (Response_json false "Email already exists" 401), world).
Proof. reflexivity. Qed.

Example register_unhashable_password :
  POST (register "Eve" "alice@example.com" "") world =
  (Return (Response_json false "Something went wrong" 500),
   logged (Error "Error" "data and salt arguments required") world).
Proof. reflexivity. Qed.

Example register_malformed_body :
  POST {| json := Throw (Error "SyntaxError" "Unexpected end of JSON input") |} world =
  (Return (Response_json false "Something went wrong" 500),
   logged (Error "SyntaxError" "Unexpected end of JSON input") world).
Proof. reflexivity. Qed.

End RegistrationRuns.

(** * Part III: further properties of the code *)

(** ** The Edge Gate: when it redirects, and where to *)

Section EdgeGateRedirects.
Import Middleware.

(** X1. A redirect of the gate has one of two causes, and no other: a
    request with a session to "/signin" or "/signup", sent to
    "/dashboard"; or a request without a session to a path that starts
    with "/dashboard", sent to "/signin". The location keeps the origin
    of the request and carries no query. *)
Theorem middleware_redirect_cause (req : Request) (location : URL) :
  middleware req = Redirect location ->
  origin location = origin (nextUrl req) /\
  search location = "" /\
  ((isLoggedIn req = true /\
    In (pathname (nextUrl req)) ["/signin"; "/signup"] /\
    pathname location = "/dashboard") \/
   (isLoggedIn req = false /\
    startsWith (pathname (nextUrl req)) "/dashboard" = true /\
    pathname location = "/signin")).
Proof.
  unfold middleware, isApiAuthRoute, isProtectedRoute.
  destruct (startsWith (pathname (nextUrl req)) "/api/auth"); [discriminate|].
  destruct (isPublicRoute req) eqn:Hpublic.
  - apply isPublicRoute_In in Hpublic.
    destruct (isLoggedIn req); [|discriminate].
    intros [= <-]. split; [reflexivity|]. split; [reflexivity|].
    left. split; [reflexivity|]. split; [exact Hpublic | reflexivity].
  - destruct (startsWith (pathname (nextUrl req)) "/dashboard"); [|discriminate].
    destruct (isLoggedIn req); [discriminate|].
    intros [= <-]. split; [reflexivity|]. split; [reflexivity|].
    right. split; [reflexivity|]. split; reflexivity.
Qed.

Lemma middleware_redirect_cause_witness :
  let req := Requests.get "https://app.example.com" "/dashboard/settings" "?tab=2" None in
  let location :=
    {| origin := "https://app.example.com"; pathname := "/signin"; search := "" |} in
  origin location = origin (nextUrl req) /\
  search location = "" /\
  ((isLoggedIn req = true /\
    In (pathname (nextUrl req)) ["/signin"; "/signup"] /\
    pathname location = "/dashboard") \/
   (isLoggedIn req = false /\
    startsWith (pathname (nextUrl req)) "/dashboard" = true /\
    pathname location = "/signin")).
Proof.
  apply (middleware_redirect_cause
           (Requests.get "https://app.example.com" "/dashboard/settings" "?tab=2" None)
           {| origin := "https://app.example.com"; pathname := "/signin"; search := "" |}).
  reflexivity.
Defined.

(** X2. The gate never redirects twice in a row: a request for the
    location of a redirect, with a session present or absent as before,
    passes through. *)
Theorem middleware_redirect_settles (req next : Request) :
  middleware req = Redirect (nextUrl next) ->
  isLoggedIn next = isLoggedIn req ->
  middleware next = Undefined.
Proof.
  intros Hredirect Hsession.
  unfold middleware, isApiAuthRoute, isProtectedRoute in Hredirect.
  destruct (startsWith (pathname (nextUrl req)) "/api/auth"); [discriminate|].
  destruct (isPublicRoute req).
  - destruct (isLoggedIn req) eqn:Hin; [|discriminate].
    injection Hredirect as Hlocation.
    unfold middleware, isApiAuthRoute, isPublicRoute, isProtectedRoute.
    now rewrite <- Hlocation, Hsession.
  - destruct (startsWith (pathname (nextUrl req)) "/dashboard"); [|discriminate].
    destruct (isLoggedIn req) eqn:Hout; [discriminate|].
    injection Hredirect as Hlocation.
    unfold middleware, isApiAuthRoute, isPublicRoute, isProtectedRoute.
    now rewrite <- Hlocation, Hsession.
Qed.

Lemma middleware_redirect_settles_witness :
  middleware (Requests.get "https://app.example.com" "/dashboard" ""
                (Some Requests.alice_session)) = Undefined.
Proof.
  apply (middleware_redirect_settles
           (Requests.post "https://app.example.com" "/signup" (Some Requests.bob_session))
           (Requests.get "https://app.example.com" "/dashboard" ""
              (Some Requests.alice_session)));
    reflexivity.
Defined.

End EdgeGateRedirects.

(** ** The Credentials Authorizer: what a returned user proves, and what
    is logged *)

Section AuthorizerSoundness.
Import Auth.
Context {DB : Type} `{Persistence DB} `{Bcrypt}.

(** X3. [authorize] returns a user only for submitted credentials, only
    the row the lookup by the submitted email returned, only if that row
    has a non-empty password, and only after bcrypt accepted the
    submitted password against it; nothing is logged then. *)
Theorem authorize_user_is_verified (credentials : Credentials) (w : World DB) (u : User.t) :
  fst (authorize credentials w) = Return (Some u) ->
  exists email password h,
    credentials = Submitted email password /\
    findUnique (store w) email = Return (Some u) /\
    User.password u = Some h /\
    h <> "" /\
    bcrypt_compare password h = Return true /\
    snd (authorize credentials w) = w.
Proof.
  unfold authorize, credentials_email, credentials_password.
  destruct credentials as [| |email password]; run_step; try discriminate.
  destruct (findUnique (store w) email) as [[u'|]|e] eqn:Hfind; try discriminate.
  destruct (User.password u') as [h|] eqn:Hpassword; try discriminate.
  destruct (truthy (Some h)) eqn:Htruthy; try discriminate. run_step.
  destruct (bcrypt_compare password h) as [[|]|e] eqn:Hcompare; try discriminate.
  cbn. intros [= <-]. exists email, password, h.
  apply truthy_Some in Htruthy. now repeat split.
Qed.

(** X4. Each call of [authorize] either leaves the world as it was, or
    returns null and adds exactly one line to the console, the error it
    swallowed: the [TypeError] of reading undefined credentials, what
    the lookup threw, or what the comparison threw. *)
Theorem authorize_logs_what_it_swallows (credentials : Credentials) (w : World DB) :
  snd (authorize credentials w) = w \/
  exists e,
    authorize credentials w =
    (Return None,
     {| store := store w; console := (console w ++ [("Authorize error:", e)])%list |}) /\
    ((credentials = Undefined /\
      e = Error "TypeError" "Cannot read properties of undefined (reading 'email')") \/
     exists email password,
       credentials = Submitted email password /\
       (findUnique (store w) email = Throw e \/
        exists u h,
          findUnique (store w) email = Return (Some u) /\
          User.password u = Some h /\
          bcrypt_compare password h = Throw e)).
Proof.
  unfold authorize, credentials_email, credentials_password.
  destruct credentials as [| |email password]; run_step.
  - now left.
  - right. eexists. split; [reflexivity|]. left. split; reflexivity.
  - destruct (findUnique (store w) email) as [[u|]|e] eqn:Hfind; [|now left|].
    + destruct (User.password u) as [h|] eqn:Hpassword; [|now left].
      destruct (truthy (Some h)); [|now left]. run_step.
      destruct (bcrypt_compare password h) as [[|]|e] eqn:Hcompare; [now left|now left|].
      right. exists e. split; [reflexivity|]. right. exists email, password.
      split; [reflexivity|]. right. now exists u, h.
    + right. exists e. split; [reflexivity|]. right. exists email, password.
      split; [reflexivity|]. now left.
Qed.

End AuthorizerSoundness.

Lemma authorize_user_is_verified_witness :
  exists email password h,
    Auth.Submitted "alice@example.com" "hunter2" = Auth.Submitted email password /\
    findUnique (store Fixture.world) email = Return (Some Fixture.alice) /\
    User.password Fixture.alice = Some h /\
    h <> "" /\
    bcrypt_compare password h = Return true /\
    snd (Auth.authorize (Auth.Submitted "alice@example.com" "hunter2") Fixture.world) = Fixture.world.
Proof.
  apply (authorize_user_is_verified (Auth.Submitted "alice@example.com" "hunter2")
           Fixture.world Fixture.alice).
  reflexivity.
Defined.

(** ** The credential-login action: what leaves it *)

Section CredentialLoginResults.
Import AuthControl.
Context {DB : Type}.
Variable signIn : string -> SignInOptions -> Run DB unit.

(** X5. No [AuthError] leaves [doCredentialLogin]: what it throws is an
    exception of another kind, thrown by [signIn] or by reading the
    fields. A result [{ error }] stands for an [AuthError] thrown by
    [signIn] and carries one of the two messages, never an empty one;
    [undefined] is returned exactly for a [signIn] that returned. *)
Theorem doCredentialLogin_contains_auth_errors (data : LoginData) (w : World DB) :
  (forall e w', doCredentialLogin signIn data w = (Throw e, w') ->
     exists name message, e = Error name message) /\
  (forall r w', doCredentialLogin signIn data w = (Return (Some r), w') ->
     (error r = "Invalid credentials." \/ error r = "Something went wrong.") /\
     exists fields type,
       read_fields data w = (Return fields, w) /\
       signIn "credentials"
         {| email := fst fields; password := snd fields; redirectTo := "/dashboard" |} w =
       (Throw (AuthError type), w')) /\
  (forall w', doCredentialLogin signIn data w = (Return None, w') <->
     exists fields,
       read_fields data w = (Return fields, w) /\
       signIn "credentials"
         {| email := fst fields; password := snd fields; redirectTo := "/dashboard" |} w =
       (Return tt, w')).
Proof.
  unfold doCredentialLogin. run_step.
  destruct (read_fields data w) as [[fields|e0] w0] eqn:Hread.
  - assert (w0 = w) as ->.
    { destruct data; cbn in Hread; unfold ret, throw in Hread; congruence. }
    destruct (signIn "credentials"
                {| email := fst fields; password := snd fields; redirectTo := "/dashboard" |} w)
      as [[[]|thrown] w1] eqn:Hsign.
    + split; [discriminate|]. split; [discriminate|].
      intros w'. split.
      * intros [= <-]. now exists fields.
      * intros [fields' [[= <-] Hsign']]. congruence.
    + destruct thrown as [type|name message].
      * destruct (String.eqb type "CredentialsSignin");
          (split; [discriminate|]; split;
           [intros r w' [= <- <-]; split; [auto|now exists fields, type]
           |intros w'; split; [discriminate|intros [fields' [[= <-] Hsign']]; congruence]]).
      * split; [intros e w' [= <- <-]; now exists name, message|].
        split; [discriminate|].
        intros w'. split; [discriminate|intros [fields' [[= <-] Hsign']]; congruence].
  - destruct data; cbn in Hread; unfold ret, throw in Hread; try discriminate.
    injection Hread as <- <-.
    split; [intros e w' [= <- <-]; now eexists _, _|].
    split; [discriminate|].
    intros w'. split; [discriminate|intros [fields [Hr _]]; discriminate].
Qed.

End CredentialLoginResults.

(** ** The registration endpoint: what it does to the table *)

Lemma emails_app (l1 l2 : list User.t) : emails (l1 ++ l2) = (emails l1 ++ emails l2)%list.
Proof. unfold emails. apply flat_map_app. Qed.

Lemma in_emails (table : list User.t) (e : string) :
  In e (emails table) <-> exists u, In u table /\ User.email u = Some e.
Proof.
  unfold emails. rewrite in_flat_map. split.
  - intros [u [Hin He]]. exists u. split; [exact Hin|].
    destruct (User.email u) as [e'|]; [|now destruct He].
    destruct He as [->|[]]. reflexivity.
  - intros [u [Hin He]]. exists u. split; [exact Hin|]. rewrite He. now left.
Qed.

Section RegistrationStore.
Import Register.
Context {DB : Type} `{Persistence DB} `{Bcrypt}.

(** The three ways a run of the handler goes. *)
Lemma POST_cases (request : Request) (w : World DB) :
  (exists e,
     raises request w e /\
     POST request w = (Return (Response_json false "Something went wrong" 500), logged e w)) \/
  (exists body h u,
     json request = Return body /\
     bcrypt_hash (password body) 10 = Return h /\
     findFirst (store w) (email body) = Return (Some u) /\
     POST request w = (Return (Response_json false "Email already exists" 401), w)) \/
  (exists body h u db',
     json request = Return body /\
     bcrypt_hash (password body) 10 = Return h /\
     findFirst (store w) (email body) = Return None /\
     create (store w) (user_data body h) = Return (u, db') /\
     POST request w =
     (Return (Response_json true "User created successfully" 200),
      {| store := db'; console := console w |})).
Proof.
  destruct (json request) as [body|e] eqn:Hjson.
  2: { left. exists e. assert (raises request w e) by now apply json_raises.
       split; [assumption | now apply POST_raises]. }
  destruct (bcrypt_hash (password body) 10) as [h|e] eqn:Hhash.
  2: { left. exists e. assert (raises request w e) by now apply (hash_raises _ _ body).
       split; [assumption | now apply POST_raises]. }
  destruct (findFirst (store w) (email body)) as [[u|]|e] eqn:Hfind.
  - right. left. exists body, h, u. repeat split; try assumption.
    now apply (POST_duplicate request w body h u).
  - destruct (create (store w) (user_data body h)) as [[u db']|e] eqn:Hcreate.
    + right. right. exists body, h, u, db'. repeat split; try assumption.
      now apply (POST_created request w body h u db').
    + left. exists e.
      assert (raises request w e) by now apply (create_raises _ _ body h).
      split; [assumption | now apply POST_raises].
  - left. exists e.
    assert (raises request w e) by now apply (findFirst_raises _ _ body h).
    split; [assumption | now apply POST_raises].
Qed.

Context `{!PersistenceLaws DB}.

(** X6. The handler only ever appends: it always answers, an answer
    other than 200 leaves the store as it was, and after a 200 the table
    is the table before followed by one row that carries the submitted
    name and email. No row is removed or changed by any request. *)
Theorem POST_appends_only (request : Request) (w : World DB) :
  exists response w',
    POST request w = (Return response, w') /\
    (status response <> 200%Z -> store w' = store w) /\
    (status response = 200%Z ->
     exists body u,
       json request = Return body /\
       users (store w') = (users (store w) ++ [u])%list /\
       User.name u = Some (name body) /\
       User.email u = Some (email body)) /\
    (forall u, In u (users (store w)) -> In u (users (store w'))).
Proof.
  destruct (POST_cases request w)
    as [[e [_ Hrun]]|[[body [h [u [_ [_ [_ Hrun]]]]]]
                     |[body [h [u [db' [Hjson [_ [_ [Hcreate Hrun]]]]]]]]]];
    eexists _, _; (split; [exact Hrun|]); cbn.
  - split; [reflexivity|]. split; [discriminate|]. auto.
  - split; [reflexivity|]. split; [discriminate|]. auto.
  - destruct (create_appends _ _ _ _ Hcreate) as [Husers [Hname [Hemail _]]].
    split; [intros Hno; now elim Hno|].
    split; [intros _; now exists body, u|].
    intros u' Hin. rewrite Husers. apply in_or_app. now left.
Qed.

(** X7. The unique index holds through a registration: if no email
    occurs twice in the table before a request, none occurs twice after
    it, whatever the request and whatever the answer. *)
Theorem POST_keeps_emails_unique (request : Request) (w : World DB) :
  unique_emails (users (store w)) ->
  unique_emails (users (store (snd (POST request w)))).
Proof.
  intros Hunique.
  destruct (POST_cases request w)
    as [[e [_ Hrun]]|[[body [h [u [_ [_ [_ Hrun]]]]]]
                     |[body [h [u [db' [Hjson [_ [Hfind [Hcreate Hrun]]]]]]]]]];
    rewrite Hrun; cbn; try exact Hunique.
  destruct (create_appends _ _ _ _ Hcreate) as [Husers [_ [Hemail _]]].
  unfold unique_emails. rewrite Husers, emails_app.
  unfold emails at 2. cbn. rewrite Hemail. cbn.
  apply NoDup_app; [exact Hunique | repeat constructor; now intros [] |].
  intros e Hin [<-|[]]. apply in_emails in Hin. destruct Hin as [u' [Hin' He]].
  exact (findFirst_miss _ _ Hfind u' Hin' He).
Qed.

(** No request and no sign-in attempt removes a row. *)
Lemma later_keeps_rows (w w' : World DB) :
  later w w' ->
  forall u, In u (users (store w)) -> In u (users (store w')).
Proof.
  induction 1 as [|w' request _ IH|w' credentials _ IH]; intros u Hin.
  - exact Hin.
  - specialize (IH u Hin).
    destruct (POST_cases request w')
      as [[e [_ Hrun]]|[[body [h [u' [_ [_ [_ Hrun]]]]]]
                       |[body [h [u' [db' [_ [_ [_ [Hcreate Hrun]]]]]]]]]];
      rewrite Hrun; cbn; try exact IH.
    destruct (create_appends _ _ _ _ Hcreate) as [Husers _].
    rewrite Husers. apply in_or_app. now left.
  - destruct (authorize_returns credentials w') as [_ Hstore].
    rewrite Hstore. exact (IH u Hin).
Qed.

(** X8. An email cannot be registered twice: after a request answered
    with 200, and after any number of further registration requests and
    sign-in attempts, a later request with the same email is answered
    with another status and leaves the store as it found it. *)
Theorem POST_same_email_twice
    (first second : Request) (body1 body2 : Body) (w w1 w2 : World DB)
    (response1 : Response) :
  POST first w = (Return response1, w1) ->
  status response1 = 200%Z ->
  json first = Return body1 ->
  later w1 w2 ->
  json second = Return body2 ->
  email body2 = email body1 ->
  exists response2 w3,
    POST second w2 = (Return response2, w3) /\
    status response2 <> 200%Z /\
    store w3 = store w2.
Proof.
  intros Hfirst Hstatus Hjson1 Hlater Hjson2 Hsame.
  assert (exists u, In u (users (store w2)) /\ User.email u = Some (email body2)) as Htaken.
  { destruct (POST_cases first w)
      as [[e [_ Hrun]]|[[body [h [u [_ [_ [_ Hrun]]]]]]
                       |[body [h [u [db' [Hjson [_ [_ [Hcreate Hrun]]]]]]]]]];
      rewrite Hrun in Hfirst; injection Hfirst as <- <-; try discriminate Hstatus.
    destruct (create_appends _ _ _ _ Hcreate) as [Husers [_ [Hemail _]]].
    exists u. split.
    - apply (later_keeps_rows _ _ Hlater). cbn. rewrite Husers.
      apply in_or_app. right. now left.
    - assert (body = body1) as -> by congruence.
      rewrite Hemail, Hsame. reflexivity. }
  destruct (POST_cases second w2)
    as [[e [_ Hrun]]|[[body [h [u [_ [_ [_ Hrun]]]]]]
                     |[body [h [u [db' [Hjson [_ [Hfind [_ _]]]]]]]]]].
  - eexists _, _. split; [exact Hrun|]. cbn. split; [discriminate|reflexivity].
  - eexists _, _. split; [exact Hrun|]. cbn. split; [discriminate|reflexivity].
  - exfalso. assert (body = body2) as -> by congruence.
    destruct Htaken as [u' [Hin He]]. exact (findFirst_miss _ _ Hfind u' Hin He).
Qed.

End RegistrationStore.

(** ** Registration, then sign-in *)

Section RegisterThenAuthorize.
Import Register.
Context {DB : Type} `{Persistence DB} `{Bcrypt}.
Context `{!PersistenceLaws DB} `{!FindUniqueLaws DB} `{!BcryptLaws}.

(** X9. Who registered can sign in: after a request answered with 200,
    [authorize] with the email and password of that request returns the
    row the request inserted, provided the lookup does not throw. *)
Theorem register_then_authorize
    (request : Request) (body : Body) (w w1 : World DB) (response : Response) :
  POST request w = (Return response, w1) ->
  status response = 200%Z ->
  json request = Return body ->
  (forall e, findUnique (store w1) (email body) <> Throw e) ->
  exists u,
    Auth.authorize (Auth.Submitted (email body) (password body)) w1 = (Return (Some u), w1) /\
    users (store w1) = (users (store w) ++ [u])%list /\
    User.name u = Some (name body) /\
    User.email u = Some (email body).
Proof.
  intros Hrun Hstatus Hjson Hlookup.
  destruct (POST_cases request w)
    as [[e [_ Hcase]]|[[body' [h [u [_ [_ [_ Hcase]]]]]]
                      |[body' [h [u [db' [Hjson' [Hhash [Hfind [Hcreate Hcase]]]]]]]]]];
    rewrite Hcase in Hrun; injection Hrun as <- <-; try discriminate Hstatus.
  assert (body' = body) as -> by congruence.
  destruct (create_appends _ _ _ _ Hcreate) as [Husers [Hname [Hemail Hpassword]]].
  cbn in Hname, Hemail, Hpassword, Hlookup.
  exists u. split; [|now repeat split].
  assert (findUnique db' (email body) = Return (Some u)) as Hunique.
  { destruct (findUnique db' (email body)) as [[u'|]|e] eqn:Hfound.
    - destruct (findUnique_hit _ _ _ Hfound) as [Hin He].
      rewrite Husers in Hin. apply in_app_or in Hin. destruct Hin as [Hold|[->|[]]].
      + now elim (findFirst_miss _ _ Hfind u' Hold).
      + reflexivity.
    - elim (findUnique_miss _ _ Hfound u); [|exact Hemail].
      rewrite Husers. apply in_or_app. right. now left.
    - now elim (Hlookup e). }
  rewrite (authorize_found {| store := db'; console := console w |}
             (email body) (password body) u h Hunique Hpassword
             (hash_not_empty _ _ _ Hhash)).
  now rewrite (compare_own_hash _ _ _ Hhash).
Qed.

End RegisterThenAuthorize.

(** ** The sign-in form *)

(** Unfolds the handlers of the pages down to the view. *)
Ltac page_step :=
  unfold try_finally, try_catch, bind, ret, throw, await, console_error; cbn.

Section SignInForm.
Import LoginPage.
Variable doCredentialLogin : LoginFormData -> completion (option AuthControl.ActionResult).
Variable update : completion unit.

(** X10. The submit handler always settles: it never throws, and it
    leaves [loading] false and the form reset exactly once. It pushes
    "/dashboard", once, exactly when the action returned without an
    error and the session refresh returned. It shows "Invalid
    credentials" for a returned error, "Login failed. Please try again."
    for a thrown action, and "Login successful!" otherwise, followed by
    the failure toast when the session refresh throws. *)
Theorem onSubmit_settles (data : LoginFormData) (ui : World View) :
  exists ui',
    onSubmit doCredentialLogin update data ui = (Return tt, ui') /\
    loading (store ui') = false /\
    resets (store ui') = S (resets (store ui)) /\
    toasts (store ui') =
    (toasts (store ui) ++
     match doCredentialLogin data with
     | Return response =>
       if has_error response then [toast_error "Invalid credentials"]
       else
         match update with
         | Return _ => [toast_success "Login successful!"]
         | Throw _ =>
           [toast_success "Login successful!";
            toast_error "Login failed. Please try again."]
         end
     | Throw _ => [toast_error "Login failed. Please try again."]
     end)%list /\
    ((exists response,
        doCredentialLogin data = Return response /\ has_error response = false /\
        update = Return tt) ->
     pushed (store ui') = (pushed (store ui) ++ ["/dashboard"])%list) /\
    (~ (exists response,
          doCredentialLogin data = Return response /\ has_error response = false /\
          update = Return tt) ->
     pushed (store ui') = pushed (store ui)).
Proof.
  unfold onSubmit, update_session, setLoading, reset, toast, router_push, on_view.
  page_step.
  destruct (doCredentialLogin data) as [response|e] eqn:Haction; page_step.
  - destruct (has_error response) eqn:Herror; page_step.
    + eexists. split; [reflexivity|]. cbn. repeat split.
      intros [r [[= <-] [Hr _]]]. congruence.
    + destruct update as [[]|e] eqn:Hupdate; page_step.
      * eexists. split; [reflexivity|]. cbn. repeat split.
        intros Hno. elim Hno. now exists response.
      * eexists. split; [reflexivity|]. cbn. repeat split.
        -- now rewrite <- app_assoc.
        -- intros [r [_ [_ Hu]]]. discriminate Hu.
  - eexists. split; [reflexivity|]. cbn. repeat split.
    intros [r [Hr _]]. discriminate Hr.
Qed.

End SignInForm.

Section SignInFormAndAction.
Import LoginPage.
Context {DB : Type}.
Variable signIn : string -> AuthControl.SignInOptions -> Run DB unit.
Variable update : completion unit.

(** X11. Whatever [AuthError] the sign-in throws, of type
    [CredentialsSignin] or of any other, the form shows the one toast
    "Invalid credentials", pushes no route, writes nothing to the
    console, and ends with [loading] false. *)
Theorem onSubmit_shows_invalid_credentials_for_every_AuthError
    (w w' : World DB) (data : LoginFormData) (type : string) (ui : World View) :
  signIn "credentials"
    {| AuthControl.email := Some (email data);
       AuthControl.password := Some (password data);
       AuthControl.redirectTo := "/dashboard" |} w = (Throw (AuthError type), w') ->
  exists ui',
    onSubmit (called signIn w) update data ui = (Return tt, ui') /\
    toasts (store ui') = (toasts (store ui) ++ [toast_error "Invalid credentials"])%list /\
    pushed (store ui') = pushed (store ui) /\
    console ui' = console ui /\
    loading (store ui') = false.
Proof.
  intros Hsign.
  assert (exists message,
            called signIn w data = Return (Some {| AuthControl.error := message |}) /\
            message <> "") as [message [Haction Hmessage]].
  { unfold called, as_login_data, AuthControl.doCredentialLogin, AuthControl.read_fields.
    run_step. rewrite Hsign.
    destruct (String.eqb type "CredentialsSignin"); eexists; split;
      try reflexivity; discriminate. }
  unfold onSubmit, update_session, setLoading, reset, toast, router_push, on_view.
  page_step. rewrite Haction. page_step.
  unfold has_error. cbn. apply truthy_Some in Hmessage. rewrite Hmessage. page_step.
  eexists. split; [reflexivity|]. cbn. now repeat split.
Qed.

End SignInFormAndAction.

(** ** The registration form *)

Section RegistrationForm.
Import RegisterPage.
Variable fetch : string -> RegisterFormData -> completion FetchResponse.

(** X12. The submit handler of the registration form always settles: it
    never throws, it ends with [loading] false, and it shows exactly one
    toast. It pushes "/login" exactly when [fetch] returned a response
    with a status from 200 to 299; otherwise it shows the [message] of
    the JSON body, or "Failed to register" when [fetch] or the parsing
    threw or the message is missing or empty. On every submission it
    writes the data of the form, the password included, to the console. *)
Theorem onRegister_settles (data : RegisterFormData) (ui : World View) :
  exists ui',
    onRegister fetch data ui = (Return tt, ui') /\
    loading (store ui') = false /\
    logged (store ui') = (logged (store ui) ++ [data])%list /\
    toasts (store ui') =
    (toasts (store ui) ++
     [match fetch "/api/auth/register" data with
      | Return res =>
        if ok res then toast_success "Register Successful"
        else
          match json res with
          | Return (Some message) =>
            toast_error (if String.eqb message "" then "Failed to register" else message)
          | _ => toast_error "Failed to register"
          end
      | Throw _ => toast_error "Failed to register"
      end])%list /\
    pushed (store ui') =
    (pushed (store ui) ++
     match fetch "/api/auth/register" data with
     | Return res => if ok res then ["/login"] else []
     | Throw _ => []
     end)%list.
Proof.
  unfold onRegister, setLoading, console_log, toast, router_push, on_view.
  page_step.
  destruct (fetch "/api/auth/register" data) as [res|e]; page_step.
  - destruct (ok res); page_step.
    + eexists. split; [reflexivity|]. cbn. now repeat split.
    + destruct (json res) as [[message|]|e]; page_step;
        (eexists; split; [reflexivity|]; cbn; repeat split;
         rewrite ?app_nil_r; try reflexivity).
      unfold message_or, truthy. now destruct (String.eqb message "").
  - eexists. split; [reflexivity|]. cbn. repeat split. now rewrite app_nil_r.
Qed.

End RegistrationForm.

Section RegistrationFormAndEndpoint.
Import RegisterPage.
Context {DB : Type} `{Persistence DB} `{Bcrypt} `{!PersistenceLaws DB}.

(** X13. What the user of the registration form sees follows the
    endpoint: when handling the request throws, the toast is "Something
    went wrong"; when nothing throws and a row shares the email, it is
    "Email already exists"; in both cases no route is pushed. When
    nothing throws and no row shares the email, the toast is "Register
    Successful" and "/login" is pushed. *)
Theorem onRegister_shows_the_answer_of_POST
    (w : World DB) (data : RegisterFormData) (ui : World View) :
  exists ui',
    onRegister (served w) data ui = (Return tt, ui') /\
    ((exists e, Register.raises (as_request data) w e) ->
     toasts (store ui') = (toasts (store ui) ++ [toast_error "Something went wrong"])%list /\
     pushed (store ui') = pushed (store ui)) /\
    ((forall e, ~ Register.raises (as_request data) w e) ->
     (exists u, In u (users (store w)) /\ User.email u = Some (email data)) ->
     toasts (store ui') = (toasts (store ui) ++ [toast_error "Email already exists"])%list /\
     pushed (store ui') = pushed (store ui)) /\
    ((forall e, ~ Register.raises (as_request data) w e) ->
     (forall u, In u (users (store w)) -> User.email u <> Some (email data)) ->
     toasts (store ui') = (toasts (store ui) ++ [toast_success "Register Successful"])%list /\
     pushed (store ui') = (pushed (store ui) ++ ["/login"])%list).
Proof.
  unfold onRegister, setLoading, console_log, toast, router_push, on_view.
  page_step. unfold served. cbn.
  destruct (POST_cases (as_request data) w)
    as [[e [Hraises Hrun]]|[[body [h [u [Hjson [Hhash [Hfind Hrun]]]]]]
                           |[body [h [u [db' [Hjson [Hhash [Hfind [Hcreate Hrun]]]]]]]]]];
    rewrite Hrun; page_step; (eexists; split; [reflexivity|]); cbn.
  - split; [intros _; split; reflexivity|].
    split; intros Hquiet; now elim (Hquiet e).
  - injection Hjson as <-. cbn in Hfind, Hhash.
    destruct (findFirst_hit _ _ _ Hfind) as [Hin Hemail].
    split; [intros [e Hraises]|split].
    + exfalso. destruct Hraises as [x Hj|b x Hj Hh|b h' x Hj Hh Hf|b h' x Hj Hh Hf Hc];
        cbn in Hj; try discriminate; injection Hj as <-; cbn in *; congruence.
    + intros _ _. split; reflexivity.
    + intros _ Hunused. now elim (Hunused u Hin).
  - injection Hjson as <-. cbn in Hfind, Hhash, Hcreate.
    split; [intros [e Hraises]|split].
    + exfalso. destruct Hraises as [x Hj|b x Hj Hh|b h' x Hj Hh Hf|b h' x Hj Hh Hf Hc];
        cbn in Hj; try discriminate; injection Hj as <-; cbn in *; congruence.
    + intros _ [u' [Hin Hemail]]. now elim (findFirst_miss _ _ Hfind u' Hin).
    + intros _ _. split; reflexivity.
Qed.

End RegistrationFormAndEndpoint.

(** ** The Prisma client on [globalThis] *)

Section Singleton.
Import PrismaSingleton.

Lemma reload_cached (production : bool) (n : nat) (client made : nat) :
  reload production n {| global_prisma := Some client; constructed := made |} =
  (repeat client n, {| global_prisma := Some client; constructed := made |}).
Proof.
  induction n as [|n IH]; [reflexivity|].
  cbn. destruct production; cbn; now rewrite IH.
Qed.

(** X14. Outside production the module is a singleton: however often it
    is evaluated again, every evaluation exports the same client, at most
    one client is ever constructed, none if the global slot was already
    filled, and the slot holds the exported client afterwards. *)
Theorem reload_development_one_client (n : nat) (p : Process) :
  let client :=
    match global_prisma p with Some c => c | None => constructed p end in
  fst (reload false n p) = repeat client n /\
  constructed (snd (reload false n p)) <= S (constructed p) /\
  (global_prisma p <> None ->
   constructed (snd (reload false n p)) = constructed p) /\
  (0 < n -> global_prisma (snd (reload false n p)) = Some client).
Proof.
  destruct p as [[c|] made]; cbn.
  - rewrite reload_cached. cbn. repeat split; auto.
  - destruct n as [|n]; cbn.
    + repeat split; auto. intros Hn. inversion Hn.
    + rewrite reload_cached. cbn. repeat split; auto. intros Hno. now elim Hno.
Qed.

(** X15. In production the slot is never filled: evaluated [n] times
    from an empty slot, the module constructs [n] clients and exports a
    different one each time. *)
Theorem reload_production_new_clients (n made : nat) :
  reload true n {| global_prisma := None; constructed := made |} =
  (seq made n, {| global_prisma := None; constructed := made + n |}) /\
  NoDup (fst (reload true n {| global_prisma := None; constructed := made |})).
Proof.
  assert (reload true n {| global_prisma := None; constructed := made |} =
          (seq made n, {| global_prisma := None; constructed := made + n |})) as Hrun.
  { revert made. induction n as [|n IH]; intros made.
    - cbn. now rewrite Nat.add_0_r.
    - cbn. rewrite IH. now rewrite Nat.add_succ_r. }
  split; [exact Hrun|]. rewrite Hrun. apply seq_NoDup.
Qed.

End Singleton.

(** ** The in-memory store and the stand-in hasher keep the further
    contracts *)

#[global] Instance MemoryStore_findUnique_laws : FindUniqueLaws MemoryStore.t.
Proof.
  constructor; cbn.
  - intros db e u. unfold MemoryStore.lookup.
    destruct (MemoryStore.online db); [|discriminate].
    intros [= Hfind]. apply find_some in Hfind. now rewrite has_email_true in Hfind.
  - intros db e. unfold MemoryStore.lookup.
    destruct (MemoryStore.online db); [|discriminate].
    intros [= Hfind] u Hin Hemail. apply has_email_true in Hemail.
    pose proof (find_none _ _ Hfind u Hin) as Hno. congruence.
Qed.

#[global] Instance TagHasher_laws : BcryptLaws.
Proof.
  constructor; intros plaintext cost h;
    change (bcrypt_hash plaintext cost) with (TagHasher.hash plaintext cost);
    unfold TagHasher.hash; destruct (String.eqb plaintext "") eqn:Hempty;
    try discriminate; intros [= <-].
  - change (bcrypt_compare plaintext (TagHasher.tag plaintext))
      with (TagHasher.compare plaintext (TagHasher.tag plaintext)).
    unfold TagHasher.compare. now rewrite Hempty, String.eqb_refl.
  - discriminate.
Qed.

(** ** Runs of the further properties *)

Section FurtherRuns.
Import Register Fixture.

Lemma world_unique_emails : unique_emails (users (store world)).
Proof.
  cbn. repeat constructor; cbn; intuition discriminate.
Qed.

Lemma POST_appends_only_witness :
  exists response w',
    POST fresh world = (Return response, w') /\
    (status response <> 200%Z -> store w' = store world) /\
    (status response = 200%Z ->
     exists body u,
       json fresh = Return body /\
       users (store w') = (users (store world) ++ [u])%list /\
       User.name u = Some (name body) /\
       User.email u = Some (email body)) /\
    (forall u, In u (users (store world)) -> In u (users (store w'))).
Proof. exact (POST_appends_only fresh world). Defined.

Lemma POST_keeps_emails_unique_witness :
  unique_emails (users (store (snd (POST fresh world)))) /\
  unique_emails (users (store (snd (POST taken world)))).
Proof.
  split.
  - apply (POST_keeps_emails_unique fresh world). exact world_unique_emails.
  - apply (POST_keeps_emails_unique taken world). exact world_unique_emails.
Defined.

Example busy_world_table :
  emails (users (store busy_world)) =
  ["alice@example.com"; "carol@example.com"; "dave@example.com"; "erin@example.com"] /\
  console busy_world = [].
Proof. split; reflexivity. Qed.

Lemma POST_same_email_twice_witness :
  exists response2 w3,
    POST (register "Dave II" "dave@example.com" "another") busy_world =
    (Return response2, w3) /\
    status response2 <> 200%Z /\
    store w3 = store busy_world.
Proof.
  apply (POST_same_email_twice fresh (register "Dave II" "dave@example.com" "another")
           {| name := "Dave"; email := "dave@example.com"; password := "s3cret" |}
           {| name := "Dave II"; email := "dave@example.com"; password := "another" |}
           world (snd (POST fresh world)) busy_world
           (Response_json true "User created successfully" 200)).
  - reflexivity.
  - reflexivity.
  - reflexivity.
  - unfold busy_world.
    apply later_authorize. apply later_POST. apply later_POST. apply later_now.
  - reflexivity.
  - reflexivity.
Defined.

Lemma register_then_authorize_witness :
  exists u,
    Auth.authorize (Auth.Submitted "dave@example.com" "s3cret") (snd (POST fresh world)) =
    (Return (Some u), snd (POST fresh world)) /\
    users (store (snd (POST fresh world))) = (users (store world) ++ [u])%list /\
    User.name u = Some "Dave" /\
    User.email u = Some "dave@example.com".
Proof.
  apply (register_then_authorize fresh
           {| name := "Dave"; email := "dave@example.com"; password := "s3cret" |}
           world (snd (POST fresh world))
           (Response_json true "User created successfully" 200)).
  - reflexivity.
  - reflexivity.
  - reflexivity.
  - intros e. discriminate.
Defined.

End FurtherRuns.

Section FurtherPageRuns.
Import Fixture Views.

Lemma onSubmit_shows_invalid_credentials_for_every_AuthError_witness :
  exists ui',
    LoginPage.onSubmit (LoginPage.called signIn world) (Return tt)
      {| LoginPage.email := "alice@example.com"; LoginPage.password := "hunter3" |}
      blank_login_view = (Return tt, ui') /\
    LoginPage.toasts (store ui') = [toast_error "Invalid credentials"] /\
    LoginPage.pushed (store ui') = [] /\
    console ui' = [] /\
    LoginPage.loading (store ui') = false.
Proof.
  apply (onSubmit_shows_invalid_credentials_for_every_AuthError signIn (Return tt)
           world world
           {| LoginPage.email := "alice@example.com"; LoginPage.password := "hunter3" |}
           "CredentialsSignin" blank_login_view).
  reflexivity.
Defined.

Lemma onRegister_shows_the_answer_of_POST_witness :
  exists ui',
    RegisterPage.onRegister (RegisterPage.served world)
      {| RegisterPage.name := "Alice Again"; RegisterPage.email := "alice@example.com";
         RegisterPage.password := "correct horse" |}
      blank_register_view = (Return tt, ui') /\
    RegisterPage.toasts (store ui') = [toast_error "Email already exists"] /\
    RegisterPage.pushed (store ui') = [].
Proof.
  destruct (onRegister_shows_the_answer_of_POST world
              {| RegisterPage.name := "Alice Again"; RegisterPage.email := "alice@example.com";
                 RegisterPage.password := "correct horse" |}
              blank_register_view) as [ui' [Hrun [_ [Hshared _]]]].
  exists ui'. split; [exact Hrun|].
  apply Hshared.
  - exact taken_quiet.
  - exists alice. split; [now left | reflexivity].
Defined.

End FurtherPageRuns.
